(** * Ubuntu image fetcher: a shallow embedding of [ubuntu_image_fetcher.py]

    The development follows the source file top-down:

    - the Python library operations the program calls ([str] methods,
      [int], [urllib.parse.urlparse], [os.path], [hashlib.md5], the
      [requests] response and exception classes, the file system);
    - the three functions of the program, [get_filename_from_url],
      [is_duplicate_image] and [download_image];
    - the properties of those functions.

    Conventions.  A Python [str] is a Rocq [string]: a sequence of code
    points below 256.  That is the exact range of HTTP header values
    (http.client decodes them as ISO-8859-1); URLs are taken in the same
    range.  The literals of the messages are written as in the source, and
    Rocq keeps their marks by their UTF-8 bytes.  A Python [bytes] is a
    [list byte].  Code that can raise returns a [result]. *)

From Stdlib Require Import ZArith NArith Lia List Ascii String Strings.Byte Bool.
From stdpp Require Import base gmap strings list pretty.

Local Open Scope string_scope.
Local Open Scope list_scope.

(** ** Exceptions *)

(** The exception classes the program can meet.  [OSError] is the class
    Python also names [IOError]; [RequestException] and its subclasses are
    those of [requests.exceptions]. *)
Inductive exception_class :=
  | Exception
  | ValueError
  | OSError
  | FileExistsError
  | FileNotFoundError
  | IsADirectoryError
  | NotADirectoryError
  | PermissionError
  | RequestException
  | HTTPError
  | ConnectionError
  | Timeout
  | ConnectTimeout
  | ReadTimeout
  | TooManyRedirects.

#[global] Instance exception_class_eq_dec : EqDecision exception_class.
Proof. solve_decision. Defined.

(** The classes an exception of class [c] is an instance of (its method
    resolution order without [BaseException] and [object]).  In
    [requests], [RequestException] derives from [IOError] and
    [ConnectTimeout] from both [ConnectionError] and [Timeout]. *)
Definition mro (c : exception_class) : list exception_class :=
  match c with
  | Exception => [Exception]
  | ValueError => [ValueError; Exception]
  | OSError => [OSError; Exception]
  | FileExistsError => [FileExistsError; OSError; Exception]
  | FileNotFoundError => [FileNotFoundError; OSError; Exception]
  | IsADirectoryError => [IsADirectoryError; OSError; Exception]
  | NotADirectoryError => [NotADirectoryError; OSError; Exception]
  | PermissionError => [PermissionError; OSError; Exception]
  | RequestException => [RequestException; OSError; Exception]
  | HTTPError => [HTTPError; RequestException; OSError; Exception]
  | ConnectionError => [ConnectionError; RequestException; OSError; Exception]
  | Timeout => [Timeout; RequestException; OSError; Exception]
  | ConnectTimeout =>
      [ConnectTimeout; ConnectionError; Timeout; RequestException; OSError; Exception]
  | ReadTimeout => [ReadTimeout; Timeout; RequestException; OSError; Exception]
  | TooManyRedirects => [TooManyRedirects; RequestException; OSError; Exception]
  end.

(** A raised exception: its class, the text [str(e)] gives, and the value
    of [e.response.status_code].  [requests] builds an [HTTPError] in
    [Response.raise_for_status] only, always with its response, so the
    field is read for that class alone. *)
Record exception := mk_exception {
  exc_class : exception_class;
  exc_str : string;
  exc_status_code : Z
}.

Definition isinstance (e : exception) (c : exception_class) : bool :=
  bool_decide (c ∈ mro (exc_class e)).

Definition new_exception (c : exception_class) (msg : string) : exception :=
  mk_exception c msg 0.

Inductive result (A : Type) :=
  | Ok (a : A)
  | Raise (e : exception).
Arguments Ok {A} a.
Arguments Raise {A} e.

(** ** [str] *)

Module str.

Definition ch (c : ascii) : string := String c "".

(** [s.startswith(p)] *)
Fixpoint startswith (p s : string) : bool :=
  match p, s with
  | "", _ => true
  | String a p', String b s' => Ascii.eqb a b && startswith p' s'
  | String _ _, "" => false
  end.

(** [s.endswith(p)] for a one-character [p] *)
Fixpoint endswith_char (c : ascii) (s : string) : bool :=
  match s with
  | "" => false
  | String a "" => Ascii.eqb a c
  | String _ s' => endswith_char c s'
  end.

(** [sub in s] *)
Fixpoint contains (sub s : string) : bool :=
  match s with
  | "" => startswith sub ""
  | String _ s' => startswith sub s || contains sub s'
  end.

(** [c in s] for a character [c] *)
Fixpoint char_in (c : ascii) (s : string) : bool :=
  match s with
  | "" => false
  | String a s' => Ascii.eqb a c || char_in c s'
  end.

Definition cons_head (c : ascii) (l : list string) : list string :=
  match l with
  | [] => [ch c]
  | x :: r => String c x :: r
  end.

(** [s.split(sep)] for a non-empty [sep]: the pieces between the
    occurrences of [sep], found from the left and not overlapping.  The
    counter [skip] is the number of characters of a separator just found
    that are still to be passed over. *)
Fixpoint split_from (sep : string) (skip : nat) (s : string) : list string :=
  match s with
  | "" => [""]
  | String c s' =>
      match skip with
      | S k => split_from sep k s'
      | O =>
          if startswith sep s
          then "" :: split_from sep (String.length sep - 1) s'
          else cons_head c (split_from sep 0 s')
      end
  end.

Definition split (sep s : string) : list string := split_from sep 0 s.

(** [l[i]] where the source has made sure that the index exists *)
Definition item (l : list string) (i : nat) : string := nth i l "".

(** [s.lstrip(chars)], [s.rstrip(chars)], [s.strip(chars)] *)
Fixpoint lstrip (chars s : string) : string :=
  match s with
  | "" => ""
  | String c s' => if char_in c chars then lstrip chars s' else s
  end.

Fixpoint rstrip (chars s : string) : string :=
  match s with
  | "" => ""
  | String c s' =>
      match rstrip chars s' with
      | "" => if char_in c chars then "" else ch c
      | r => String c r
      end
  end.

Definition strip (chars s : string) : string := rstrip chars (lstrip chars s).

(** [s.partition(c)] for a character: the text before the first [c] and
    the text after it, or [None] when [c] does not occur. *)
Fixpoint partition (c : ascii) (s : string) : option (string * string) :=
  match s with
  | "" => None
  | String a s' =>
      if Ascii.eqb a c then Some ("", s')
      else match partition c s' with
           | Some (l, r) => Some (String a l, r)
           | None => None
           end
  end.

(** [s[s.rfind(c)+1:]] and [s[:s.rfind(c)+1]]: the text after the last
    [c] (all of [s] when there is none) and the text up to it. *)
Fixpoint after_last (c : ascii) (s : string) : string :=
  match s with
  | "" => ""
  | String a s' =>
      if char_in c s' then after_last c s'
      else if Ascii.eqb a c then s' else s
  end.

Fixpoint upto_last (c : ascii) (s : string) : string :=
  match s with
  | "" => ""
  | String a s' =>
      if char_in c s' then String a (upto_last c s')
      else if Ascii.eqb a c then ch a else ""
  end.

(** [s.replace(c, "")] *)
Fixpoint remove_char (c : ascii) (s : string) : string :=
  match s with
  | "" => ""
  | String a s' =>
      if Ascii.eqb a c then remove_char c s' else String a (remove_char c s')
  end.

Definition is_upper (c : ascii) : bool :=
  (65 <=? N_of_ascii c)%N && (N_of_ascii c <=? 90)%N.
Definition is_lower (c : ascii) : bool :=
  (97 <=? N_of_ascii c)%N && (N_of_ascii c <=? 122)%N.
Definition is_digit (c : ascii) : bool :=
  (48 <=? N_of_ascii c)%N && (N_of_ascii c <=? 57)%N.

(** [s.lower()] on the letters A-Z *)
Definition lower_char (c : ascii) : ascii :=
  if is_upper c then ascii_of_N (N_of_ascii c + 32) else c.

Fixpoint lower (s : string) : string :=
  match s with
  | "" => ""
  | String c s' => String (lower_char c) (lower s')
  end.

Fixpoint all_chars (P : ascii -> bool) (s : string) : bool :=
  match s with
  | "" => true
  | String c s' => P c && all_chars P s'
  end.

(** [not s]: the empty string is false *)
Definition is_empty (s : string) : bool :=
  match s with "" => true | _ => false end.

End str.

(** ** [int] *)

(** The characters [int(s)] passes over around the number: the ASCII
    blanks, and the two blanks of the range above 127 (NEL and the
    no-break space), which CPython turns into spaces first. *)
Definition int_blanks : string :=
  string_of_list_ascii
    (map ascii_of_N [9; 10; 11; 12; 13; 32; 133; 160]%N).

(** CPython's default bound on the digits [int] converts
    ([sys.int_info.default_max_str_digits]). *)
Definition max_str_digits : nat := 4300.

(** The digits of the number, single underscores allowed between two
    digits: the value read so far and the count of digits. *)
Fixpoint int_digits (after_digit : bool) (acc : Z) (count : nat) (s : string)
  : option (Z * nat) :=
  match s with
  | "" => if after_digit then Some (acc, count) else None
  | String c s' =>
      if str.is_digit c
      then int_digits true (10 * acc + (Z.of_N (N_of_ascii c) - 48)) (S count) s'
      else if Ascii.eqb c "_"
           then (if after_digit then int_digits false acc count s' else None)
           else None
  end.

(** [int(s)] for a [str]: [ValueError] unless [s] is a decimal literal with
    an optional sign, blanks around it allowed. *)
Definition int (s : string) : result Z :=
  let invalid := Raise (new_exception ValueError
                   ("invalid literal for int() with base 10: '" +:+ s +:+ "'")) in
  let body (sign : Z) (t : string) :=
    match int_digits false 0 0 t with
    | Some (v, n) =>
        if (max_str_digits <? n)%nat
        then Raise (new_exception ValueError
               "Exceeds the limit (4300 digits) for integer string conversion")
        else Ok (sign * v)%Z
    | None => invalid
    end in
  match str.strip int_blanks s with
  | String "+" t => body 1%Z t
  | String "-" t => body (-1)%Z t
  | t => body 1%Z t
  end.

(** ** [os.path] (posixpath) *)

Module posixpath.

(** [basename(p)]: [p[p.rfind('/')+1:]] *)
Definition basename (p : string) : string := str.after_last "/" p.

(** [join(a, b)] *)
Definition join (a b : string) : string :=
  if str.startswith "/" b then b
  else if str.is_empty a || str.endswith_char "/" a then a +:+ b
  else a +:+ "/" +:+ b.

(** [split(p)]: head and tail around the last [/]; the slashes that end
    the head are dropped unless the head is made of slashes only. *)
Definition split (p : string) : string * string :=
  let head := str.upto_last "/" p in
  let tail := str.after_last "/" p in
  let head :=
    if negb (str.is_empty head) && negb (str.all_chars (Ascii.eqb "/") head)
    then str.rstrip "/" head else head in
  (head, tail).

Definition dirname (p : string) : string := fst (split p).

End posixpath.

(** ** [urllib.parse] *)

Module urllib.

Record ParseResult := mk_ParseResult {
  scheme : string;
  netloc : string;
  path : string;
  params : string;
  query : string;
  fragment : string
}.

Definition uses_params : list string :=
  [""; "ftp"; "hdl"; "prospero"; "http"; "imap"; "https"; "shttp"; "rtsp";
   "rtspu"; "sip"; "sips"; "mms"; "sftp"; "tel"].

(** [c in scheme_chars]: letters, digits and [+-.] *)
Definition scheme_char (c : ascii) : bool :=
  str.is_lower c || str.is_upper c || str.is_digit c || str.char_in c "+-.".

(** The characters [urlsplit] drops from the left of a URL: the C0
    controls and the space. *)
Definition c0_control_or_space : string :=
  string_of_list_ascii (map ascii_of_nat (seq 0 33)).

(** [_splitnetloc(url, 2)] on the text after the two slashes: the domain
    runs to the first [/], [?] or [#]. *)
Fixpoint splitnetloc (s : string) : string * string :=
  match s with
  | "" => ("", "")
  | String c s' =>
      if str.char_in c "/?#" then ("", s)
      else let '(n, r) := splitnetloc s' in (String c n, r)
  end.

(** [_splitparams(url)]: the parameters follow the first [;] of the last
    segment of the path. *)
Definition splitparams (url : string) : string * string :=
  match str.partition ";" (str.after_last "/" url) with
  | Some (t, p) => (str.upto_last "/" url +:+ t, p)
  | None => (url, "")
  end.

Section parse.

(** [_check_bracketed_host(hostname)]: whether the library takes the host
    between brackets for an IPv6 or IPvFuture literal.  The releases of
    Python differ here (the check is absent before 3.11.4), and the
    development is carried out for every such check. *)
Variable check_bracketed_host : string -> bool.

Definition invalid_ipv6 {A} : result A :=
  Raise (new_exception ValueError "Invalid IPv6 URL").

(** [_check_bracketed_netloc(netloc)] *)
Definition check_bracketed_netloc (netloc : string) : result unit :=
  let hostname_and_port :=
    if str.char_in "@" netloc then str.after_last "@" netloc else netloc in
  match str.partition "[" hostname_and_port with
  | Some (before_bracket, bracketed) =>
      if negb (str.is_empty before_bracket) then invalid_ipv6
      else
        let '(hostname, port) :=
          match str.partition "]" bracketed with
          | Some hp => hp
          | None => (bracketed, "")
          end in
        if negb (str.is_empty port) && negb (str.startswith ":" port)
        then invalid_ipv6
        else if check_bracketed_host hostname then Ok tt
        else Raise (new_exception ValueError "invalid bracketed host")
  | None =>
      let hostname :=
        match str.partition ":" hostname_and_port with
        | Some (h, _) => h
        | None => hostname_and_port
        end in
      if check_bracketed_host hostname then Ok tt
      else Raise (new_exception ValueError "invalid bracketed host")
  end.

(** [urlsplit(url)]: scheme, netloc, path, query, fragment.  The last
    check of the library, [_checknetloc], rejects a netloc whose NFKC
    form gains one of [/?#@:]; no code point below 256 does that, so it
    lets every netloc of this development pass. *)
Definition urlsplit (url : string)
  : result (string * string * string * string * string) :=
  let url := str.lstrip c0_control_or_space url in
  let url := str.remove_char "010" (str.remove_char "013" (str.remove_char "009" url)) in
  let '(scheme, url) :=
    match str.partition ":" url with
    | Some (String c0 _ as before, after) =>
        if (str.is_lower c0 || str.is_upper c0)
           && str.all_chars scheme_char before
        then (str.lower before, after)
        else ("", url)
    | _ => ("", url)
    end in
  let after_netloc :=
    match url with
    | String "/" (String "/" rest) =>
        let '(netloc, url) := splitnetloc rest in
        if (str.char_in "[" netloc && negb (str.char_in "]" netloc))
           || (str.char_in "]" netloc && negb (str.char_in "[" netloc))
        then invalid_ipv6
        else if str.char_in "[" netloc && str.char_in "]" netloc
        then match check_bracketed_netloc netloc with
             | Ok _ => Ok (netloc, url)
             | Raise e => Raise e
             end
        else Ok (netloc, url)
    | _ => Ok ("", url)
    end in
  match after_netloc with
  | Raise e => Raise e
  | Ok (netloc, url) =>
      let '(url, fragment) :=
        match str.partition "#" url with
        | Some uf => uf
        | None => (url, "")
        end in
      let '(url, query) :=
        match str.partition "?" url with
        | Some uq => uq
        | None => (url, "")
        end in
      Ok (scheme, netloc, url, query, fragment)
  end.

(** [urlparse(url)] *)
Definition urlparse (url : string) : result ParseResult :=
  match urlsplit url with
  | Raise e => Raise e
  | Ok (scheme, netloc, url, query, fragment) =>
      let '(url, params) :=
        if bool_decide (scheme ∈ uses_params) && str.char_in ";" url
        then splitparams url
        else (url, "") in
      Ok (mk_ParseResult scheme netloc url params query fragment)
  end.

End parse.

End urllib.

(** ** [bytes] and [str.encode] *)

Abbreviation bytes := (list byte).

Definition byte_of_N (n : N) : byte := byte_of_ascii (ascii_of_N n).

(** [s.encode()]: UTF-8.  A code point below 128 is one byte, one from
    128 to 255 is two. *)
Fixpoint str_encode (s : string) : bytes :=
  match s with
  | "" => []
  | String c s' =>
      let n := N_of_ascii c in
      if (n <? 128)%N then byte_of_ascii c :: str_encode s'
      else byte_of_N (N.lor 192 (N.shiftr n 6))
             :: byte_of_N (N.lor 128 (N.land n 63)) :: str_encode s'
  end.

(** ** [hashlib.md5] (RFC 1321) *)

Module hashlib.

Local Open Scope N_scope.

Definition mask32 : N := 4294967295.

Definition add32 (x y : N) : N := N.land (x + y) mask32.

Definition not32 (x : N) : N := N.lxor x mask32.

Definition leftrotate (x c : N) : N :=
  N.lor (N.land (N.shiftl x c) mask32) (N.shiftr x (32 - c)).

Definition shifts : list N :=
  [7; 12; 17; 22; 7; 12; 17; 22; 7; 12; 17; 22; 7; 12; 17; 22;
   5; 9; 14; 20; 5; 9; 14; 20; 5; 9; 14; 20; 5; 9; 14; 20;
   4; 11; 16; 23; 4; 11; 16; 23; 4; 11; 16; 23; 4; 11; 16; 23;
   6; 10; 15; 21; 6; 10; 15; 21; 6; 10; 15; 21; 6; 10; 15; 21].

(** [floor(2^32 * abs(sin(i + 1)))] for [i] from 0 to 63 *)
Definition sines : list N :=
  [3614090360; 3905402710; 606105819; 3250441966; 4118548399; 1200080426;
   2821735955; 4249261313; 1770035416; 2336552879; 4294925233; 2304563134;
   1804603682; 4254626195; 2792965006; 1236535329; 4129170786; 3225465664;
   643717713; 3921069994; 3593408605; 38016083; 3634488961; 3889429448;
   568446438; 3275163606; 4107603335; 1163531501; 2850285829; 4243563512;
   1735328473; 2368359562; 4294588738; 2272392833; 1839030562; 4259657740;
   2763975236; 1272893353; 4139469664; 3200236656; 681279174; 3936430074;
   3572445317; 76029189; 3654602809; 3873151461; 530742520; 3299628645;
   4096336452; 1126891415; 2878612391; 4237533241; 1700485571; 2399980690;
   4293915773; 2240044497; 1873313359; 4264355552; 2734768916; 1309151649;
   4149444226; 3174756917; 718787259; 3951481745].

(** The four 32-bit words of the state *)
Definition state : Type := N * N * N * N.

Definition init : state := (1732584193, 4023233417, 2562383102, 271733878).

(** The 32-bit little-endian words of a block *)
Fixpoint words (l : list N) : list N :=
  match l with
  | b0 :: b1 :: b2 :: b3 :: r =>
      (b0 + N.shiftl b1 8 + N.shiftl b2 16 + N.shiftl b3 24) :: words r
  | _ => []
  end.

(** One of the 64 operations on a block with words [m] *)
Definition step (m : list N) (st : state) (i : nat) : state :=
  let '(a, b, c, d) := st in
  let '(f, g) :=
    if (i <? 16)%nat then (N.lor (N.land b c) (N.land (not32 b) d), i)
    else if (i <? 32)%nat
    then (N.lor (N.land d b) (N.land (not32 d) c), ((5 * i + 1) mod 16)%nat)
    else if (i <? 48)%nat
    then (N.lxor b (N.lxor c d), ((3 * i + 5) mod 16)%nat)
    else (N.lxor c (N.lor b (not32 d)), ((7 * i) mod 16)%nat) in
  let f := add32 (add32 (add32 f a) (nth i sines 0)) (nth g m 0) in
  (d, add32 b (leftrotate f (nth i shifts 0)), b, c).

Definition process (st : state) (block : list N) : state :=
  let '(a0, b0, c0, d0) := st in
  let '(a, b, c, d) := fold_left (step (words block)) (seq 0 64) st in
  (add32 a0 a, add32 b0 b, add32 c0 c, add32 d0 d).

Fixpoint blocks (fuel : nat) (st : state) (l : list N) : state :=
  match fuel with
  | O => st
  | S fuel' =>
      match l with
      | [] => st
      | _ => blocks fuel' (process st (firstn 64 l)) (skipn 64 l)
      end
  end.

(** [n] as [k] little-endian bytes *)
Fixpoint le_bytes (k : nat) (n : N) : list N :=
  match k with
  | O => []
  | S k' => N.land n 255 :: le_bytes k' (N.shiftr n 8)
  end.

(** The message followed by the byte 128, zeros up to 56 modulo 64, and
    its length in bits on 8 bytes *)
Definition pad (l : list N) : list N :=
  let len := length l in
  let zeros := ((55 + 64 - len mod 64) mod 64)%nat in
  l ++ 128 :: repeat 0 zeros ++ le_bytes 8 (8 * N.of_nat len).

(** [md5(data).digest()] as a list of 16 numbers below 256 *)
Definition digest (data : bytes) : list N :=
  let l := pad (map Byte.to_N data) in
  let '(a, b, c, d) := blocks (length l) init l in
  le_bytes 4 a ++ le_bytes 4 b ++ le_bytes 4 c ++ le_bytes 4 d.

Definition hex_digit (n : N) : ascii :=
  if n <? 10 then ascii_of_N (48 + n) else ascii_of_N (87 + n).

Fixpoint hex (l : list N) : string :=
  match l with
  | [] => ""
  | b :: r =>
      String (hex_digit (N.shiftr b 4)) (String (hex_digit (N.land b 15)) (hex r))
  end.

(** [md5(data).hexdigest()] *)
Definition md5_hexdigest (data : bytes) : string := hex (digest data).

End hashlib.

(** [s[:n]] *)
Fixpoint slice_to (n : nat) (s : string) : string :=
  match n, s with
  | S n', String c s' => String c (slice_to n' s')
  | _, _ => ""
  end.

(** ** [requests]: responses *)

(** [response.headers], a [CaseInsensitiveDict]: the values by the
    lower-cased name of the header. *)
Record Response := mk_Response {
  status_code : Z;
  headers : gmap string string;
  content : bytes
}.

(** [headers.get(key)] and [headers.get(key, default)] *)
Definition headers_get (h : gmap string string) (key : string) : option string :=
  h !! str.lower key.

Definition headers_get_default (h : gmap string string) (key default : string)
  : string :=
  match headers_get h key with
  | Some v => v
  | None => default
  end.

(** [response.raise_for_status()]: an [HTTPError] carrying the response
    for the statuses from 400 to 599, nothing for the others. *)
Definition raise_for_status (r : Response) : result unit :=
  if ((400 <=? status_code r) && (status_code r <? 500))%Z
  then Raise (mk_exception HTTPError
                (pretty (status_code r) +:+ " Client Error") (status_code r))
  else if ((500 <=? status_code r) && (status_code r <? 600))%Z
  then Raise (mk_exception HTTPError
                (pretty (status_code r) +:+ " Server Error") (status_code r))
  else Ok tt.

(** ** The file system and the standard output *)

(** What a path names: a file with its content and whether the process
    may read and write it, or a directory.  Paths are compared as the
    strings the program builds; links and the components [.] and [..] are
    not resolved. *)
Inductive node :=
  | File (data : bytes) (readable writable : bool)
  | Dir.

Record world := mk_world {
  fs : gmap string node;
  stdout : list string
}.

(** A computation reads and changes the world, and returns or raises.
    What it did before raising stays done. *)
Definition M (A : Type) : Type := world -> result A * world.

Definition ret {A} (a : A) : M A := fun w => (Ok a, w).

Definition bind {A B} (c : M A) (k : A -> M B) : M B :=
  fun w =>
    match c w with
    | (Ok a, w') => k a w'
    | (Raise e, w') => (Raise e, w')
    end.

Definition raise {A} (e : exception) : M A := fun w => (Raise e, w).

Definition lift {A} (r : result A) : M A := fun w => (r, w).

#[global] Instance M_ret : MRet M := @ret.
#[global] Instance M_bind : MBind M := fun A B k c => bind c k.

(** [try: body except c1: h1 ... except cn: hn]: the first clause whose
    class the exception is an instance of handles it; with no such clause
    the exception goes on to the caller. *)
Fixpoint handle {A} (handlers : list (exception_class * (exception -> M A)))
    (e : exception) : M A :=
  match handlers with
  | [] => raise e
  | (c, h) :: rest => if isinstance e c then h e else handle rest e
  end.

Definition try_except {A} (body : M A)
    (handlers : list (exception_class * (exception -> M A))) : M A :=
  fun w =>
    match body w with
    | (Ok a, w') => (Ok a, w')
    | (Raise e, w') => handle handlers e w'
    end.

(** [print(s)] *)
Definition print (s : string) : M unit :=
  fun w => (Ok tt, mk_world (fs w) (stdout w ++ [s])).

Definition set_fs (m : gmap string node) : M unit :=
  fun w => (Ok tt, mk_world m (stdout w)).

(** [os.path.exists(p)] *)
Definition exists_ (p : string) : M bool :=
  fun w => (Ok (bool_decide (is_Some (fs w !! p))), w).

(** [str(e)] for an [OSError] on the path [p] *)
Definition os_error (c : exception_class) (errno p : string) : exception :=
  new_exception c (errno +:+ ": '" +:+ p +:+ "'").

Definition permission_denied (p : string) : exception :=
  os_error PermissionError "[Errno 13] Permission denied" p.
Definition is_a_directory (p : string) : exception :=
  os_error IsADirectoryError "[Errno 21] Is a directory" p.
Definition no_such_file (p : string) : exception :=
  os_error FileNotFoundError "[Errno 2] No such file or directory" p.
Definition file_exists (p : string) : exception :=
  os_error FileExistsError "[Errno 17] File exists" p.

(** [open(p, 'rb').read()] *)
Definition read_file (p : string) : M bytes :=
  fun w =>
    match fs w !! p with
    | Some (File data true _) => (Ok data, w)
    | Some (File _ false _) => (Raise (permission_denied p), w)
    | Some Dir => (Raise (is_a_directory p), w)
    | None => (Raise (no_such_file p), w)
    end.

(** Whether [d] is a directory to create a file in: the current one, the
    root, or a directory that is there. *)
Definition is_dir (m : gmap string node) (d : string) : bool :=
  str.is_empty d || str.all_chars (Ascii.eqb "/") d
  || match m !! d with Some Dir => true | _ => false end.

(** [open(p, 'wb').write(data)]: truncate or create, then write. *)
Definition write_file (p : string) (data : bytes) : M unit :=
  fun w =>
    match fs w !! p with
    | Some (File _ r true) => set_fs (<[p := File data r true]> (fs w)) w
    | Some (File _ _ false) => (Raise (permission_denied p), w)
    | Some Dir => (Raise (is_a_directory p), w)
    | None =>
        if is_dir (fs w) (posixpath.dirname p)
        then set_fs (<[p := File data true true]> (fs w)) w
        else (Raise (no_such_file p), w)
    end.

(** The directories [os.makedirs(name)] needs, the outer ones first: the
    text before each [/] of [name] that follows a component, then [name]
    without the slashes that end it. *)
Fixpoint parents (before s : string) : list string :=
  match s with
  | "" => []
  | String c s' =>
      (if Ascii.eqb c "/" && negb (str.is_empty before)
          && negb (str.endswith_char "/" before)
       then [before] else [])
      ++ parents (before +:+ str.ch c) s'
  end.

Definition directories (name : string) : list string :=
  let name := str.rstrip "/" name in
  if str.is_empty name then [] else parents "" name ++ [name].

(** One directory: it is there, or it is created, or a file is in the way. *)
Definition mkdir_exist_ok (d : string) : M unit :=
  fun w =>
    match fs w !! d with
    | Some Dir => (Ok tt, w)
    | Some (File _ _ _) => (Raise (file_exists d), w)
    | None => set_fs (<[d := Dir]> (fs w)) w
    end.

Fixpoint mkdirs (l : list string) : M unit :=
  match l with
  | [] => ret tt
  | d :: l' => mkdir_exist_ok d ;; mkdirs l'
  end.

(** [os.makedirs(name, exist_ok=True)] *)
Definition makedirs (name : string) : M unit :=
  if str.is_empty name
  then raise (no_such_file name)
  else mkdirs (directories name).

(** * The program *)

Section fetcher.

Variable check_bracketed_host : string -> bool.

(** [requests.get(url, headers=headers, timeout=15)]: what the server at
    [url] answers, or the exception the library raises. *)
Variable requests_get : string -> result Response.

(** The characters line 27 strips: the double and the single quote *)
Definition quotes : string := String "034" "'".

(** Line 24 and line 30: [not filename or '.' not in filename] *)
Definition no_clear_name (filename : string) : bool :=
  str.is_empty filename || negb (str.contains "." filename).

(** Lines 21-27: the name the URL path gives, or else the
    [Content-Disposition] header *)
Definition name_from_url_or_header (parsed_url : urllib.ParseResult)
    (response : Response) : string :=
  let filename := posixpath.basename (urllib.path parsed_url) in
  if no_clear_name filename
  then
    let content_disp :=
      headers_get_default (headers response) "Content-Disposition" "" in
    if str.contains "filename=" content_disp
    then str.strip quotes (str.item (str.split "filename=" content_disp) 1)
    else filename
  else filename.

(** Line 31: the first 8 hexadecimal digits of the MD5 of the URL *)
Definition url_hash (url : string) : string :=
  slice_to 8 (hashlib.md5_hexdigest (str_encode url)).

(** Lines 31-42: the generated name *)
Definition generated_name (url : string) (response : Response) : string :=
  let content_type :=
    headers_get_default (headers response) "Content-Type" "" in
  if str.contains "image/" content_type
  then
    let ext := str.item (str.split "/" content_type) 1 in
    let ext := if String.eqb ext "jpeg" then "jpg" else ext in
    "downloaded_image_" +:+ url_hash url +:+ "." +:+ ext
  else "downloaded_image_" +:+ url_hash url +:+ ".bin".

(** Lines 14-44 *)
Definition get_filename_from_url (url : string) (response : Response)
  : result string :=
  match urllib.urlparse check_bracketed_host url with
  | Raise e => Raise e
  | Ok parsed_url =>
      let filename := name_from_url_or_header parsed_url response in
      if no_clear_name filename
      then Ok (generated_name url response)
      else Ok filename
  end.

(** Lines 46-63 *)
Definition is_duplicate_image (filepath : string) (content : bytes) : M bool :=
  there ← exists_ filepath;
  if negb there then ret false
  else
    let new_content_hash := hashlib.md5_hexdigest content in
    try_except
      (data ← read_file filepath;
       let existing_content_hash := hashlib.md5_hexdigest data in
       ret (String.eqb new_content_hash existing_content_hash))
      [(OSError, fun _ => ret false)].

(** The messages of [download_image] *)
Definition msg_not_image (content_type : string) : string :=
  "✗ Respectful warning: The URL does not point to an image (Content-Type: "
  +:+ content_type +:+ ").".
Definition msg_too_large : string :=
  "✗ Respectful warning: File size exceeds 10MB limit.".
Definition msg_exists (filename : string) : string :=
  "✓ Community resource preserved: '" +:+ filename
  +:+ "' already exists in our collection.".
Definition msg_saved (filename filepath : string) : string :=
  "✓ Successfully fetched: " +:+ filename +:+ String "010" "✓ Image saved to "
  +:+ filepath.
Definition msg_timeout : string :=
  "✗ Connection timeout: The community member took too long to respond.".
Definition msg_http_error (status : Z) : string :=
  "✗ HTTP error: The community server responded with " +:+ pretty status.
Definition msg_connection_error : string :=
  "✗ Connection error: Could not reach the community member.".
Definition msg_network_error (detail : string) : string :=
  "✗ Network error: " +:+ detail.
Definition msg_unexpected (detail : string) : string :=
  "✗ An unexpected error occurred: " +:+ detail.

(** The 10MB limit of line 92 *)
Definition size_limit : Z := 10 * 1024 * 1024.

(** Lines 99-107: the duplicate check and the write *)
Definition save_image (filename filepath : string) (content : bytes)
  : M (string * bool) :=
  duplicate ← is_duplicate_image filepath content;
  if duplicate : bool
  then ret (msg_exists filename, true)
  else
    write_file filepath content;;
    ret (msg_saved filename filepath, true).

(** Lines 83-107: what is done with the response *)
Definition process_response (url download_dir : string) (response : Response)
  : M (string * bool) :=
  lift (raise_for_status response);;
  let content_type := headers_get_default (headers response) "Content-Type" "" in
  if negb (str.startswith "image/" content_type)
  then ret (msg_not_image content_type, false)
  else
    too_large ←
      lift match headers_get (headers response) "Content-Length" with
           | None => Ok false
           | Some content_length =>
               if str.is_empty content_length then Ok false
               else match int content_length with
                    | Ok n => Ok (size_limit <? n)%Z
                    | Raise e => Raise e
                    end
           end;
    if too_large : bool
    then ret (msg_too_large, false)
    else
      filename ← lift (get_filename_from_url url response);
      let filepath := posixpath.join download_dir filename in
      save_image filename filepath (content response).

(** Line 79 *)
Definition connecting (parsed : urllib.ParseResult) : string :=
  "Connecting to the community at " +:+ urllib.netloc parsed +:+ "...".

(** Lines 71-107, the body of the [try] *)
Definition download_body (url download_dir : string) : M (string * bool) :=
  makedirs download_dir;;
  parsed ← lift (urllib.urlparse check_bracketed_host url);
  print (connecting parsed);;
  response ← lift (requests_get url);
  process_response url download_dir response.

(** Lines 109-118, the [except] clauses in their order *)
Definition download_handlers
  : list (exception_class * (exception -> M (string * bool))) :=
  [ (Timeout, fun _ => ret (msg_timeout, false));
    (HTTPError, fun e => ret (msg_http_error (exc_status_code e), false));
    (ConnectionError, fun _ => ret (msg_connection_error, false));
    (RequestException, fun e => ret (msg_network_error (exc_str e), false));
    (Exception, fun e => ret (msg_unexpected (exc_str e), false)) ].

(** Lines 65-118 *)
Definition download_image (url download_dir : string) : M (string * bool) :=
  try_except (download_body url download_dir) download_handlers.

(** ** The driver *)

(** The characters [s.strip()] removes: those of [str.isspace] below 256 *)
Definition whitespace : string :=
  string_of_list_ascii
    (map ascii_of_N [9; 10; 11; 12; 13; 28; 29; 30; 31; 32; 133; 160]%N).

(** ["=" * 60] *)
Definition rule_line : string := string_of_list_ascii (repeat "="%char 60).

(** The messages of [main] *)
Definition prompt : string :=
  String "010" "Please enter image URL(s), separated by commas if multiple: ".
Definition msg_no_url : string :=
  "✗ No URL provided. The community connection requires an address.".
Definition msg_processing (i total : nat) : string :=
  String "010" "--- Processing URL " +:+ pretty i +:+ " of " +:+ pretty total
  +:+ " ---".
Definition msg_invalid_url (url : string) : string :=
  "✗ Invalid URL: '" +:+ url
  +:+ "'. Please use full URLs (e.g., https://example.com/image.jpg)".
Definition msg_strengthened (n : nat) : string :=
  "✓ " +:+ pretty n +:+ " connection(s) strengthened. Community enriched.".
Definition msg_no_connections : string :=
  "ℹ No new connections made today, but the community remains.".

(** [input(prompt)] when the user types the line [typed]: the prompt is
    written to the standard output and the line returned.  The end of the
    input is not modelled. *)
Definition input (prompt typed : string) : M string :=
  print prompt;; ret typed.

(** Lines 138-155: the loop over [enumerate(urls, 1)] from the index [i]
    on, [total] being [len(urls)]; it returns [successful_downloads]. *)
Fixpoint process_urls (total i : nat) (urls : list string)
    (successful_downloads : nat) : M nat :=
  match urls with
  | [] => ret successful_downloads
  | url :: rest =>
      if str.is_empty url
      then process_urls total (S i) rest successful_downloads
      else
        print (msg_processing i total);;
        parsed ← lift (urllib.urlparse check_bracketed_host url);
        if str.is_empty (urllib.scheme parsed)
           || str.is_empty (urllib.netloc parsed)
        then
          print (msg_invalid_url url);;
          process_urls total (S i) rest successful_downloads
        else
          outcome ← download_image url "Fetched_Images";
          print (fst outcome);;
          process_urls total (S i) rest
            (if snd outcome : bool then S successful_downloads
             else successful_downloads)
  end.

(** Lines 120-163 *)
Definition main (typed : string) : M unit :=
  print rule_line;;
  print "Welcome to the Ubuntu Image Fetcher";;
  print "A tool for mindfully collecting images from the web";;
  print "Embracing the principle: 'I am because we are'";;
  print rule_line;;
  line ← input prompt typed;
  let url_input := str.strip whitespace line in
  if str.is_empty url_input
  then print msg_no_url
  else
    let urls := map (str.strip whitespace) (str.split "," url_input) in
    successful_downloads ← process_urls (length urls) 1 urls 0;
    print (String "010" rule_line);;
    (if (0 <? successful_downloads)%nat
     then print (msg_strengthened successful_downloads)
     else print msg_no_connections);;
    print rule_line.

End fetcher.

(** ** Words of the specification *)

(** [seg] is the final segment of the path [p]: what follows its last
    [/], or all of [p] when it has none. *)
Definition final_segment (p seg : string) : Prop :=
  str.char_in "/" seg = false /\
  (p = seg \/ exists dir, p = dir +:+ "/" +:+ seg).

(** A response has passed the gates of lines 83-93: its status raises
    nothing, its type starts with [image/], and its [Content-Length] is
    absent, empty or a number within the limit. *)
Definition passes_gates (response : Response) : Prop :=
  raise_for_status response = Ok tt /\
  str.startswith "image/"
    (headers_get_default (headers response) "Content-Type" "") = true /\
  match headers_get (headers response) "Content-Length" with
  | None => True
  | Some v => v = "" \/ exists n, int v = Ok n /\ (n <= size_limit)%Z
  end.

(** The request of line 82 was made from the world [w] and answered by
    [response]: the directory was made, the URL parsed and the line
    printed, which left the world [w1]. *)
Definition retrieved (chk : string -> bool) (net : string -> result Response)
    (url download_dir : string) (w : world) (response : Response) (w1 : world)
  : Prop :=
  exists w0 parsed,
    makedirs download_dir w = (Ok tt, w0) /\
    urllib.urlparse chk url = Ok parsed /\
    w1 = mk_world (fs w0) (stdout w0 ++ [connecting parsed]) /\
    net url = Ok response.

(** Two file systems hold the same files: the same content and the same
    permissions at the same paths (directories apart). *)
Definition same_files (m m' : gmap string node) : Prop :=
  forall p data r x,
    m !! p = Some (File data r x) <-> m' !! p = Some (File data r x).

(** The five messages of the [except] clauses for an exception [e] *)
Definition failure_messages (e : exception) : list string :=
  [ msg_timeout; msg_http_error (exc_status_code e); msg_connection_error;
    msg_network_error (exc_str e); msg_unexpected (exc_str e) ].

(** A hexadecimal digit as [hexdigest] writes them *)
Definition is_hex_digit (c : ascii) : bool :=
  str.is_digit c || ((97 <=? N_of_ascii c)%N && (N_of_ascii c <=? 102)%N).

(** Line 129 and line 135: the entries of the line typed *)
Definition entered_urls (typed : string) : list string :=
  map (str.strip whitespace) (str.split "," (str.strip whitespace typed)).

(** Lines 145-146: the entry parses and has a scheme and a host *)
Definition full_url (chk : string -> bool) (url : string) : bool :=
  match urllib.urlparse chk url with
  | Ok parsed =>
      negb (str.is_empty (urllib.scheme parsed))
      && negb (str.is_empty (urllib.netloc parsed))
  | Raise _ => false
  end.

(** The entry is empty or [urlparse] accepts it *)
Definition parses (chk : string -> bool) (url : string) : Prop :=
  url = "" \/ exists parsed, urllib.urlparse chk url = Ok parsed.

(** The world after fetching each URL of a list in turn *)
Fixpoint fetch_each (chk : string -> bool) (net : string -> result Response)
    (urls : list string) (w : world) : world :=
  match urls with
  | [] => w
  | url :: rest =>
      fetch_each chk net rest
        (snd (download_image chk net url "Fetched_Images" w))
  end.

(** The URL [scheme://host/path?query#fragment], the query and the
    fragment being there or not *)
Definition url_of (scheme host path : string) (query fragment : option string)
  : string :=
  scheme +:+ "://" +:+ host +:+ path
  +:+ match query with Some q => "?" +:+ q | None => "" end
  +:+ match fragment with Some f => "#" +:+ f | None => "" end.

(** Neither a tab nor a line feed nor a carriage return is in [s] *)
Definition no_tab_newline (s : string) : bool :=
  negb (str.char_in "009" s) && negb (str.char_in "010" s)
  && negb (str.char_in "013" s).

(** The parts make a URL that [urlparse] takes apart again: the scheme
    starts with a letter and is made of scheme characters, the host has
    no slash, question mark, hash or bracket, the path is empty or starts
    with a slash and has no question mark, hash or semicolon, the query
    has no hash, and no tab or line break is in the URL. *)
Definition plain_url (scheme host path : string) (query fragment : option string)
  : Prop :=
  (exists c0 rest,
     scheme = String c0 rest /\ str.is_lower c0 || str.is_upper c0 = true) /\
  str.all_chars urllib.scheme_char scheme = true /\
  str.all_chars (fun c => negb (str.char_in c "/?#[]")) host = true /\
  (path = "" \/ str.startswith "/" path = true) /\
  str.char_in "?" path = false /\
  str.char_in "#" path = false /\
  str.char_in ";" path = false /\
  (forall q, query = Some q -> str.char_in "#" q = false) /\
  no_tab_newline (url_of scheme host path query fragment) = true.

(** Line 154: the outcome has the flag [True] *)
Definition succeeded (r : result (string * bool)) : bool :=
  match r with
  | Ok (_, true) => true
  | _ => false
  end.

(** The number of URLs of a list whose fetch succeeds, each fetched in
    the world the one before has left *)
Fixpoint successes (chk : string -> bool) (net : string -> result Response)
    (urls : list string) (w : world) : nat :=
  match urls with
  | [] => 0
  | url :: rest =>
      let '(r, w') := download_image chk net url "Fetched_Images" w in
      (if succeeded r then 1 else 0) + successes chk net rest w'
  end.

(** Lines 159-162: the line that sums up [n] successful downloads *)
Definition summary (n : nat) : string :=
  if (0 <? n)%nat then msg_strengthened n else msg_no_connections.

(** ** Worlds to run the program in *)

(** The header [attachment; filename="pic.png"] *)
Definition attachment_pic_png : string :=
  "attachment; filename=" +:+ String "034" ("pic.png" +:+ String "034" "").

(** A Python before the check of bracketed hosts *)
Definition any_bracketed_host (_ : string) : bool := true.

Definition image_response (content_type : string) (body : bytes) : Response :=
  mk_Response 200 {[ "content-type" := content_type ]} body.

Definition sunset : bytes := str_encode "the bytes of a sunset".

(** A server that answers every URL with the response [r] *)
Definition always (r : Response) (_ : string) : result Response := Ok r.

(** A server that cannot be reached in time *)
Definition too_slow (_ : string) : result Response :=
  Raise (new_exception ReadTimeout "Read timed out. (read timeout=15)").

Definition empty_world : world := mk_world ∅ [].

(** The directory with [sunset.jpg] in it, holding [data] *)
Definition world_with (data : bytes) (readable writable : bool) : world :=
  mk_world {[ "Fetched_Images" := Dir;
              "Fetched_Images/sunset.jpg" := File data readable writable ]} [].

(** A server that cannot be connected to in time *)
Definition connection_timed_out (_ : string) : result Response :=
  Raise (new_exception ConnectTimeout "Connection to example.com timed out.").

(** Other bytes than [sunset] *)
Definition moon : bytes := str_encode "the bytes of a moon".





(** The world after the directory is made and the request announced *)
Definition world_connected (w : world) : world :=
  mk_world (<["Fetched_Images" := Dir]> (fs w))
    (stdout w ++ ["Connecting to the community at example.com..."]).

(** * Properties *)

(** ** Strings *)

#[local] Arguments String.append !s1 s2 : simpl nomatch.

Lemma append_nil_r (s : string) : s +:+ "" = s.
Proof. induction s as [|c s IH]; simpl; [reflexivity | now rewrite IH]. Qed.

Lemma append_assoc (a b c : string) : (a +:+ b) +:+ c = a +:+ (b +:+ c).
Proof. induction a as [|x a IH]; simpl; [reflexivity | now rewrite IH]. Qed.

Lemma length_append (a b : string) :
  String.length (a +:+ b) = String.length a + String.length b.
Proof. induction a as [|x a IH]; simpl; [reflexivity | now rewrite IH]. Qed.

Lemma startswith_self (p s : string) : str.startswith p (p +:+ s) = true.
Proof.
  induction p as [|c p IH]; simpl; [reflexivity |].
  now rewrite Ascii.eqb_refl, IH.
Qed.

(** A prefix no longer than [a] is looked for in [a] alone. *)
Lemma startswith_app_long (p a b : string) :
  String.length p <= String.length a ->
  str.startswith p (a +:+ b) = str.startswith p a.
Proof.
  revert a; induction p as [|c p IH]; intros a Hlen; [reflexivity |].
  destruct a as [|x a]; simpl in *; [lia |].
  rewrite IH by lia. reflexivity.
Qed.

Lemma contains_startswith (p s : string) :
  str.startswith p s = true -> str.contains p s = true.
Proof.
  destruct s; simpl; intros H; [exact H | now rewrite H].
Qed.

Lemma contains_app_r (p a b : string) :
  str.contains p b = true -> str.contains p (a +:+ b) = true.
Proof.
  intros H. induction a as [|c a IH]; simpl; [exact H |].
  rewrite IH. apply orb_true_r.
Qed.

Lemma contains_middle (p a b : string) : str.contains p (a +:+ p +:+ b) = true.
Proof. apply contains_app_r, contains_startswith, startswith_self. Qed.

Lemma contains_nonempty (p s : string) :
  p <> "" -> str.contains p s = true -> str.is_empty s = false.
Proof.
  intros Hp H. destruct s; [| reflexivity].
  destruct p; [congruence | discriminate].
Qed.

Lemma is_empty_false (s : string) : str.is_empty s = false <-> s <> "".
Proof. destruct s; simpl; split; congruence. Qed.

Lemma char_in_app (c : ascii) (a b : string) :
  str.char_in c (a +:+ b) = str.char_in c a || str.char_in c b.
Proof.
  induction a as [|x a IH]; simpl; [reflexivity |].
  now rewrite IH, orb_assoc.
Qed.

Lemma after_last_none (c : ascii) (s : string) :
  str.char_in c s = false -> str.after_last c s = s.
Proof.
  destruct s as [|a s]; simpl; [reflexivity |].
  intros H. apply orb_false_iff in H as [Ha Hs].
  now rewrite Hs, Ha.
Qed.

Lemma after_last_app (c : ascii) (dir seg : string) :
  str.char_in c seg = false ->
  str.after_last c (dir +:+ String c seg) = seg.
Proof.
  intros Hseg. induction dir as [|a dir IH]; simpl.
  - now rewrite Hseg, Ascii.eqb_refl.
  - rewrite char_in_app. simpl. rewrite Ascii.eqb_refl, orb_true_r. exact IH.
Qed.

Lemma char_in_after_last (c : ascii) (s : string) :
  str.char_in c (str.after_last c s) = false.
Proof.
  induction s as [|a s IH]; simpl; [reflexivity |].
  destruct (str.char_in c s) eqn:Hs; [exact IH |].
  destruct (Ascii.eqb a c) eqn:Ha; [exact Hs |].
  simpl. now rewrite Ha, Hs.
Qed.

Lemma upto_after_last (c : ascii) (s : string) :
  str.upto_last c s +:+ str.after_last c s = s.
Proof.
  induction s as [|a s IH]; simpl; [reflexivity |].
  destruct (str.char_in c s); simpl; [now rewrite IH |].
  destruct (Ascii.eqb a c); reflexivity.
Qed.

Lemma upto_last_ends (c : ascii) (s : string) :
  str.char_in c s = true -> exists dir, str.upto_last c s = dir +:+ str.ch c.
Proof.
  induction s as [|a s IH]; simpl; [discriminate |].
  destruct (str.char_in c s) eqn:Hs.
  - intros _. destruct (IH eq_refl) as [dir Hdir].
    exists (String a dir). simpl. now rewrite Hdir.
  - rewrite orb_false_r. intros Ha. rewrite Ha.
    apply Ascii.eqb_eq in Ha as ->. now exists "".
Qed.

(** [os.path.basename] gives the final segment, and nothing else is one. *)
Lemma basename_final_segment (p seg : string) :
  final_segment p seg <-> posixpath.basename p = seg.
Proof.
  unfold posixpath.basename. split.
  - intros [Hseg [-> | [dir ->]]].
    + now apply after_last_none.
    + now apply after_last_app.
  - intros <-. split; [apply char_in_after_last |].
    destruct (str.char_in "/" p) eqn:Hp.
    + right. destruct (upto_last_ends _ _ Hp) as [dir Hdir].
      exists dir. rewrite <- (upto_after_last "/" p) at 1.
      rewrite Hdir. unfold str.ch. now rewrite append_assoc.
    + left. symmetry. now apply after_last_none.
Qed.

(** *** [split] *)

Lemma split_from_skip (sep x s : string) :
  str.split_from sep (String.length x) (x +:+ s) = str.split_from sep 0 s.
Proof. induction x as [|c x IH]; simpl; [reflexivity | exact IH]. Qed.

(** Without an occurrence of the separator there is one piece. *)
Lemma split_none (sep s : string) :
  str.contains sep s = false -> str.split sep s = [s].
Proof.
  unfold str.split. induction s as [|c s IH]; simpl; [reflexivity |].
  intros H. apply orb_false_iff in H as [H1 H2].
  destruct sep as [|a sep]; [discriminate |].
  simpl in H1. simpl. rewrite H1, (IH H2). reflexivity.
Qed.

(** The first piece ends where the separator [m +:+ ch x] first begins. *)

Lemma split_cons_match (sep s : string) (c : ascii) :
  str.split_from sep 0 (String c s) =
  if str.startswith sep (String c s)
  then "" :: str.split_from sep (String.length sep - 1) s
  else str.cons_head c (str.split_from sep 0 s).
Proof. reflexivity. Qed.

Lemma split_first (m : string) (x : ascii) (pre post : string) :
  let sep := m +:+ str.ch x in
  str.contains sep (pre +:+ m) = false ->
  str.split sep (pre +:+ sep +:+ post) = pre :: str.split sep post.
Proof.
  intros sep. unfold str.split.
  assert (Hlen : String.length sep = S (String.length m)).
  { unfold sep. rewrite length_append. simpl. lia. }
  induction pre as [|c pre IH]; intros H.
  - change ("" +:+ sep +:+ post) with (sep +:+ post).
    destruct sep as [|a sep'] eqn:Hsep; [discriminate |].
    change (String a sep' +:+ post) with (String a (sep' +:+ post)).
    rewrite split_cons_match.
    change (String a (sep' +:+ post)) with (String a sep' +:+ post).
    rewrite startswith_self.
    replace (String.length (String a sep') - 1) with (String.length sep')
      by (simpl; lia).
    now rewrite split_from_skip.
  - change (String c pre +:+ m) with (String c (pre +:+ m)) in H.
    simpl in H. apply orb_false_iff in H as [H1 H2].
    assert (Hs : str.startswith sep (String c (pre +:+ sep +:+ post)) = false).
    { change (String c (pre +:+ sep +:+ post)) with (String c pre +:+ sep +:+ post).
      unfold sep at 2. rewrite (append_assoc m), <- (append_assoc (String c pre)).
      rewrite startswith_app_long.
      - destruct sep; [discriminate | exact H1].
      - rewrite Hlen, length_append. simpl. lia. }
    change (String c pre +:+ sep +:+ post)
      with (String c (pre +:+ sep +:+ post)).
    rewrite split_cons_match, Hs, (IH H2). reflexivity.
Qed.

Lemma contains_char (c : ascii) (s : string) :
  str.contains (str.ch c) s = str.char_in c s.
Proof.
  induction s as [|a s IH]; simpl; [reflexivity |].
  rewrite IH, (Ascii.eqb_sym c a). now destruct (Ascii.eqb a c).
Qed.

Lemma char_in_slice_to (c : ascii) (n : nat) (s : string) :
  str.char_in c s = false -> str.char_in c (slice_to n s) = false.
Proof.
  revert s; induction n as [|n IH]; intros [|a s]; simpl; try reflexivity.
  intros H. apply orb_false_iff in H as [Ha Hs]. now rewrite Ha, IH.
Qed.

(** *** The digest in hexadecimal *)

Lemma le_bytes_bound (k : nat) (n : N) :
  Forall (fun b => (b < 256)%N) (hashlib.le_bytes k n).
Proof.
  revert n; induction k as [|k IH]; intros n; simpl; constructor; [| apply IH].
  change 255%N with (N.ones 8). rewrite N.land_ones.
  now apply N.mod_lt.
Qed.

Lemma le_bytes_length (k : nat) (n : N) : length (hashlib.le_bytes k n) = k.
Proof. revert n; induction k as [|k IH]; intros n; simpl; [| rewrite IH]; reflexivity. Qed.

Lemma digest_bound (data : bytes) :
  Forall (fun b => (b < 256)%N) (hashlib.digest data).
Proof.
  unfold hashlib.digest.
  destruct (hashlib.blocks _ _ _) as [[[a b] c] d].
  repeat (apply Forall_app; split); apply le_bytes_bound.
Qed.

Lemma digest_length (data : bytes) : length (hashlib.digest data) = 16.
Proof.
  unfold hashlib.digest.
  destruct (hashlib.blocks _ _ _) as [[[a b] c] d].
  rewrite !length_app, !le_bytes_length. reflexivity.
Qed.

Lemma hex_digit_not_dot (n : N) :
  (n < 16)%N -> Ascii.eqb (hashlib.hex_digit n) "." = false.
Proof.
  intros Hn.
  assert (Hall : forallb (fun k => negb (Ascii.eqb (hashlib.hex_digit (N.of_nat k)) "."))
                   (seq 0 16) = true) by reflexivity.
  rewrite forallb_forall in Hall.
  specialize (Hall (N.to_nat n)). rewrite N2Nat.id in Hall.
  apply negb_true_iff, Hall, in_seq. lia.
Qed.

Lemma hex_no_dot (l : list N) :
  Forall (fun b => (b < 256)%N) l -> str.char_in "." (hashlib.hex l) = false.
Proof.
  induction 1 as [|b l Hb _ IH]; simpl; [reflexivity |].
  rewrite !hex_digit_not_dot, IH; [reflexivity | |].
  - change 15%N with (N.ones 4). rewrite N.land_ones. now apply N.mod_lt.
  - rewrite N.shiftr_div_pow2. apply N.Div0.div_lt_upper_bound.
    exact Hb.
Qed.

Lemma hex_length (l : list N) : String.length (hashlib.hex l) = 2 * length l.
Proof. induction l as [|b l IH]; simpl; [reflexivity | rewrite IH; lia]. Qed.

Lemma slice_to_length (n : nat) (s : string) :
  n <= String.length s -> String.length (slice_to n s) = n.
Proof.
  revert s; induction n as [|n IH]; intros [|a s]; simpl; intros H;
    try reflexivity; try lia.
  rewrite IH by lia. reflexivity.
Qed.

(** The hash segment of a generated name: 8 characters, none a dot. *)
Lemma url_hash_length (url : string) : String.length (url_hash url) = 8.
Proof.
  unfold url_hash, hashlib.md5_hexdigest. apply slice_to_length.
  rewrite hex_length, digest_length. lia.
Qed.

Lemma url_hash_no_dot (url : string) : str.char_in "." (url_hash url) = false.
Proof.
  unfold url_hash, hashlib.md5_hexdigest.
  apply char_in_slice_to, hex_no_dot, digest_bound.
Qed.

(** ** The filename resolver *)

Section resolver_properties.

Variable chk : string -> bool.

Lemma no_clear_name_false (name : string) :
  no_clear_name name = false <-> name <> "" /\ str.contains "." name = true.
Proof.
  unfold no_clear_name. rewrite orb_false_iff, negb_false_iff, is_empty_false.
  reflexivity.
Qed.

Lemma generated_name_clear (url : string) (response : Response) :
  no_clear_name (generated_name url response) = false.
Proof.
  apply no_clear_name_false. unfold generated_name.
  destruct (str.contains "image/" _); split;
    try discriminate; apply (contains_middle "." ("downloaded_image_" +:+ _)).
Qed.

Lemma get_filename_parsed (url : string) (response : Response)
    (parsed : urllib.ParseResult) :
  urllib.urlparse chk url = Ok parsed ->
  get_filename_from_url chk url response =
    Ok (let filename := name_from_url_or_header parsed response in
        if no_clear_name filename then generated_name url response
        else filename).
Proof.
  intros H. unfold get_filename_from_url. rewrite H.
  now destruct (no_clear_name _).
Qed.

(** The resolver raises exactly when [urlparse] does. *)
Lemma get_filename_raises (url : string) (response : Response) (e : exception) :
  get_filename_from_url chk url response = Raise e <->
  urllib.urlparse chk url = Raise e.
Proof.
  unfold get_filename_from_url.
  destruct (urllib.urlparse chk url) as [parsed | e'].
  - destruct (no_clear_name _); split; discriminate.
  - split; intros [= ->]; reflexivity.
Qed.


(** C6, amended.  On every URL that [urlparse] accepts, and for every
    response, the resolver returns a name; the name is not empty and has
    a dot. *)
Theorem get_filename_total_on_parsed (url : string) (response : Response)
    (parsed : urllib.ParseResult) :
  urllib.urlparse chk url = Ok parsed ->
  exists name,
    get_filename_from_url chk url response = Ok name /\
    name <> "" /\ str.contains "." name = true.
Proof.
  intros Hparse. rewrite (get_filename_parsed _ _ _ Hparse).
  eexists; split; [reflexivity |]. cbv zeta.
  destruct (no_clear_name (name_from_url_or_header parsed response)) eqn:Hc.
  - apply no_clear_name_false, generated_name_clear.
  - now apply no_clear_name_false.
Qed.

(** C9.  Rule 2: when the final segment of the path is empty or has no
    dot and the [Content-Disposition] header contains [filename=], the
    resolver takes the text after the first [filename=] (up to a second
    one, were there any), strips the quote characters around it and
    returns it when it has a dot.  When [filename=] occurs once, that
    text is all that follows it.  With the header
    [attachment; filename="pic.png"] the name is [pic.png]. *)
Theorem disposition_name (url : string) (response : Response)
    (parsed : urllib.ParseResult) (seg cd : string) :
  urllib.urlparse chk url = Ok parsed ->
  final_segment (urllib.path parsed) seg ->
  seg = "" \/ str.contains "." seg = false ->
  headers_get (headers response) "Content-Disposition" = Some cd ->
  str.contains "filename=" cd = true ->
  (let name := str.strip quotes (str.item (str.split "filename=" cd) 1) in
   str.contains "." name = true ->
   get_filename_from_url chk url response = Ok name) /\
  (forall pre post,
     cd = pre +:+ "filename=" +:+ post ->
     str.contains "filename=" (pre +:+ "filename") = false ->
     str.contains "filename=" post = false ->
     str.contains "." (str.strip quotes post) = true ->
     get_filename_from_url chk url response = Ok (str.strip quotes post)) /\
  (cd = attachment_pic_png ->
   get_filename_from_url chk url response = Ok "pic.png").
Proof.
  intros Hparse Hseg Hrule1 Hcd Hfn.
  apply basename_final_segment in Hseg.
  assert (Hunclear : no_clear_name seg = true).
  { unfold no_clear_name. destruct Hrule1 as [-> | ->]; [reflexivity |].
    apply orb_true_r. }
  assert (Hname : name_from_url_or_header parsed response =
                  str.strip quotes (str.item (str.split "filename=" cd) 1)).
  { unfold name_from_url_or_header, headers_get_default.
    now rewrite Hseg, Hunclear, Hcd, Hfn. }
  assert (Hgen : forall name,
             name = str.strip quotes (str.item (str.split "filename=" cd) 1) ->
             str.contains "." name = true ->
             get_filename_from_url chk url response = Ok name).
  { intros name -> Hdot. rewrite (get_filename_parsed _ _ _ Hparse), Hname.
    cbv zeta. replace (no_clear_name _) with false; [reflexivity |].
    symmetry. apply no_clear_name_false. split; [| exact Hdot].
    apply is_empty_false. eapply contains_nonempty; [| exact Hdot]. discriminate. }
  split; [| split].
  - intros name. now apply Hgen.
  - intros pre post -> Hfirst Hlast Hdot. apply Hgen; [| exact Hdot].
    pose proof (split_first "filename" "=" pre post Hfirst) as Hsplit.
    change ("filename" +:+ str.ch "=") with "filename=" in Hsplit.
    cbv zeta in Hsplit. rewrite Hsplit.
    now rewrite (split_none _ _ Hlast).
  - intros ->. now apply Hgen.
Qed.

(** C2, amended.  When the name is generated: if the [Content-Type] does
    not contain [image/], the extension is [bin]; if it is [image/jpeg],
    the extension is [jpg]; if it is [image/] followed by a subtype
    without [/], the extension is that subtype, [jpeg] turned into [jpg];
    and whenever it contains [image/], the extension is its second piece
    between slashes, [jpeg] turned into [jpg].  The text before the
    extension has no dot. *)
Theorem generated_extension (url : string) (response : Response)
    (parsed : urllib.ParseResult) :
  urllib.urlparse chk url = Ok parsed ->
  no_clear_name (name_from_url_or_header parsed response) = true ->
  let content_type := headers_get_default (headers response) "Content-Type" "" in
  let jpg ext := if String.eqb ext "jpeg" then "jpg" else ext in
  str.char_in "." ("downloaded_image_" +:+ url_hash url) = false /\
  (str.contains "image/" content_type = false ->
   get_filename_from_url chk url response =
     Ok ("downloaded_image_" +:+ url_hash url +:+ ".bin")) /\
  (content_type = "image/jpeg" ->
   get_filename_from_url chk url response =
     Ok ("downloaded_image_" +:+ url_hash url +:+ ".jpg")) /\
  (forall subtype,
     content_type = "image/" +:+ subtype ->
     str.char_in "/" subtype = false ->
     get_filename_from_url chk url response =
       Ok ("downloaded_image_" +:+ url_hash url +:+ "." +:+ jpg subtype)) /\
  (str.contains "image/" content_type = true ->
   get_filename_from_url chk url response =
     Ok ("downloaded_image_" +:+ url_hash url +:+ "."
         +:+ jpg (str.item (str.split "/" content_type) 1))).
Proof.
  intros Hparse Hgen content_type jpg.
  rewrite (get_filename_parsed _ _ _ Hparse). cbv zeta. rewrite Hgen.
  unfold generated_name. fold content_type.
  split; [| split; [| split; [| split]]].
  - rewrite char_in_app, url_hash_no_dot. reflexivity.
  - now intros ->.
  - now intros ->.
  - intros subtype Hct Hsub. rewrite Hct.
    replace (str.contains "image/" ("image/" +:+ subtype)) with true
      by (symmetry; apply (contains_middle "image/" "" subtype)).
    pose proof (split_first "" "/" "image" subtype eq_refl) as Hsplit.
    change ("" +:+ str.ch "/") with "/" in Hsplit. cbv zeta in Hsplit.
    change ("image" +:+ "/" +:+ subtype) with ("image/" +:+ subtype) in Hsplit.
    rewrite Hsplit, split_none; [reflexivity |].
    change "/" with (str.ch "/"). now rewrite contains_char.
  - now intros ->.
Qed.

End resolver_properties.

(** ** The duplicate detector *)

Ltac unfold_M :=
  unfold mbind, M_bind, bind, mret, M_ret, ret, lift, raise, set_fs in *.

(** The duplicate detector by what is at the path *)
Lemma is_duplicate_image_cases (filepath : string) (content : bytes) (w : world) :
  is_duplicate_image filepath content w =
    (Ok match fs w !! filepath with
        | Some (File data true _) =>
            String.eqb (hashlib.md5_hexdigest content) (hashlib.md5_hexdigest data)
        | _ => false
        end, w).
Proof.
  unfold is_duplicate_image, exists_, try_except, read_file. unfold_M.
  destruct (fs w !! filepath) as [[data [|] x |]|] eqn:Hp.
  - rewrite bool_decide_true by eauto. cbn. now rewrite Hp.
  - rewrite bool_decide_true by eauto. cbn. now rewrite Hp.
  - rewrite bool_decide_true by eauto. cbn. now rewrite Hp.
  - reflexivity.
Qed.

(** C7.  [is_duplicate_image] answers "not a duplicate" when nothing is at
    the path; when a readable file is there, it answers "duplicate"
    exactly when the MD5 digests of the new bytes and of the whole file
    are equal; and when what is there cannot be read, it answers "not a
    duplicate" and raises nothing.  It never changes the world. *)
Theorem duplicate_detector (filepath : string) (content : bytes) (w : world) :
  (fs w !! filepath = None ->
   is_duplicate_image filepath content w = (Ok false, w)) /\
  (forall data writable,
     fs w !! filepath = Some (File data true writable) ->
     exists b,
       is_duplicate_image filepath content w = (Ok b, w) /\
       (b = true <->
        hashlib.md5_hexdigest content = hashlib.md5_hexdigest data)) /\
  (forall e,
     is_Some (fs w !! filepath) ->
     fst (read_file filepath w) = Raise e ->
     is_duplicate_image filepath content w = (Ok false, w)).
Proof.
  rewrite is_duplicate_image_cases.
  split; [| split].
  - intros ->. reflexivity.
  - intros data writable ->.
    eexists; split; [reflexivity |]. apply String.eqb_eq.
  - intros e [n Hn]. unfold read_file. rewrite Hn.
    destruct n as [data [|] writable |]; cbn; [discriminate | |];
      intros _; reflexivity.
Qed.

(** ** The [except] clauses *)

(** Every exception finds its clause: the clauses return a message of
    failure and the flag [False], and leave the world as it is. *)
Lemma handlers_total (e : exception) (w : world) :
  exists msg,
    handle download_handlers e w = (Ok (msg, false), w) /\
    msg ∈ failure_messages e /\ msg <> "".
Proof.
  destruct e as [c detail status].
  unfold failure_messages.
  destruct c; cbn; eexists; (split; [reflexivity |]);
    (split; [set_solver | discriminate]).
Qed.

(** The clause that handles an exception, by its class *)
Lemma handlers_by_class (e : exception) (w : world) :
  handle download_handlers e w =
    (Ok (if isinstance e Timeout then msg_timeout
         else if isinstance e HTTPError then msg_http_error (exc_status_code e)
         else if isinstance e ConnectionError then msg_connection_error
         else if isinstance e RequestException then msg_network_error (exc_str e)
         else msg_unexpected (exc_str e), false), w).
Proof.
  destruct e as [c detail status]. destruct c; reflexivity.
Qed.

Section orchestrator_properties.

Variable chk : string -> bool.
Variable net : string -> result Response.

(** C3.  [download_image] always returns a message and a flag to its
    caller; and whenever its body raises an exception, whatever the URL,
    the step and the class of the exception, it returns one of the
    messages of failure with the flag [False]. *)
Theorem failures_are_contained (url download_dir : string) (w : world) :
  (exists msg flag w',
     download_image chk net url download_dir w = (Ok (msg, flag), w')) /\
  (forall e w1,
     download_body chk net url download_dir w = (Raise e, w1) ->
     exists msg,
       download_image chk net url download_dir w = (Ok (msg, false), w1) /\
       msg ∈ failure_messages e /\ msg <> "").
Proof.
  unfold download_image, try_except.
  destruct (download_body chk net url download_dir w) as [[[msg flag] | e] w1].
  - split; [eauto |]. discriminate.
  - destruct (handlers_total e w1) as (msg & Hmsg & Hin & Hne).
    split; [eauto |]. intros e' w1' [= <- <-]. eauto.
Qed.

(** *** From the request to the response *)

(** Once the request is answered, the outcome is that of lines 83-107
    under the [except] clauses. *)
Lemma download_image_retrieved (url download_dir : string) (w w1 : world)
    (response : Response) :
  retrieved chk net url download_dir w response w1 ->
  download_image chk net url download_dir w =
    try_except (process_response chk url download_dir response)
      download_handlers w1.
Proof.
  intros (w0 & parsed & Hdirs & Hparse & -> & Hnet).
  unfold download_image, try_except, download_body, print. unfold_M.
  now rewrite Hdirs, Hparse, Hnet.
Qed.

(** The messages are told apart by their first words. *)
Lemma msg_http_error_distinct (status : Z) :
  msg_http_error status <> msg_timeout /\
  msg_http_error status <> msg_connection_error /\
  (forall detail, msg_http_error status <> msg_network_error detail) /\
  (forall detail, msg_http_error status <> msg_unexpected detail) /\
  (forall content_type, msg_http_error status <> msg_not_image content_type) /\
  msg_http_error status <> msg_too_large.
Proof. repeat split; try intros ?; discriminate. Qed.

Lemma msg_http_error_inj (s1 s2 : Z) :
  msg_http_error s1 = msg_http_error s2 -> s1 = s2.
Proof.
  unfold msg_http_error. intros H.
  apply (inj (String.append _)) in H. now apply (inj pretty) in H.
Qed.

(** C8, amended.  For every response whose status is from 400 to 599,
    [download_image] returns the flag [False] and the message of the HTTP
    error, which ends with that status; the status is read back from the
    message, and the message differs from those of a timeout, of a
    connection failure and of any other network error. *)
Theorem http_error_status (url download_dir : string) (w w1 : world)
    (response : Response) :
  retrieved chk net url download_dir w response w1 ->
  (400 <= status_code response < 600)%Z ->
  download_image chk net url download_dir w =
    (Ok (msg_http_error (status_code response), false), w1) /\
  (forall status,
     msg_http_error status = msg_http_error (status_code response) ->
     status = status_code response) /\
  msg_http_error (status_code response) <> msg_timeout /\
  msg_http_error (status_code response) <> msg_connection_error /\
  (forall detail,
     msg_http_error (status_code response) <> msg_network_error detail).
Proof.
  intros Hret Hstatus.
  split; [| split; [intros status; apply msg_http_error_inj |]].
  2: { pose proof (msg_http_error_distinct (status_code response)). tauto. }
  rewrite (download_image_retrieved _ _ _ _ _ Hret).
  unfold try_except, process_response, raise_for_status. unfold_M.
  destruct (Z.ltb_spec (status_code response) 500).
  - rewrite (proj2 (Z.leb_le 400 _)) by lia. reflexivity.
  - rewrite andb_false_r, (proj2 (Z.leb_le 500 _)), (proj2 (Z.ltb_lt _ 600)) by lia.
    reflexivity.
Qed.

(** Statuses outside 400-599 raise nothing. *)
Lemma raise_for_status_ok (response : Response) :
  raise_for_status response = Ok tt <->
  ~ (400 <= status_code response < 600)%Z.
Proof.
  unfold raise_for_status.
  destruct (Z.leb_spec 400 (status_code response)),
           (Z.ltb_spec (status_code response) 500),
           (Z.leb_spec 500 (status_code response)),
           (Z.ltb_spec (status_code response) 600); cbn;
    split; intros Hgoal; try discriminate; try reflexivity; try lia;
    exfalso; apply Hgoal; lia.
Qed.

(** *** The file system *)

Lemma retrieved_fs (url download_dir : string) (w w1 : world)
    (response : Response) :
  retrieved chk net url download_dir w response w1 ->
  exists w0, makedirs download_dir w = (Ok tt, w0) /\ fs w1 = fs w0.
Proof. intros (w0 & parsed & Hdirs & _ & -> & _). eauto. Qed.

Lemma mkdirs_cons (d : string) (l : list string) (w : world) :
  mkdirs (d :: l) w =
    match fs w !! d with
    | Some Dir => mkdirs l w
    | Some (File _ _ _) => (Raise (file_exists d), w)
    | None => mkdirs l (mk_world (<[d := Dir]> (fs w)) (stdout w))
    end.
Proof.
  cbn [mkdirs]. unfold mkdir_exist_ok. unfold_M.
  now destruct (fs w !! d) as [[]|].
Qed.

Lemma mkdirs_stdout (l : list string) (w : world) :
  stdout (snd (mkdirs l w)) = stdout w.
Proof.
  revert w; induction l as [|d l IH]; intros w; [reflexivity |].
  rewrite mkdirs_cons. destruct (fs w !! d) as [[]|]; [reflexivity | apply IH |].
  now rewrite IH.
Qed.

(** [makedirs] keeps what is there ... *)
Lemma mkdirs_lookup (l : list string) (w : world) (p : string) (n : node) :
  fs w !! p = Some n -> fs (snd (mkdirs l w)) !! p = Some n.
Proof.
  revert w; induction l as [|d l IH]; intros w Hp; [exact Hp |].
  rewrite mkdirs_cons.
  destruct (fs w !! d) as [[]|] eqn:Hd; [exact Hp | now apply IH |].
  apply IH. cbn. rewrite lookup_insert_ne; [exact Hp | congruence].
Qed.

(** ... and adds directories only. *)
Lemma mkdirs_files (l : list string) (w : world) (p : string)
    (data : bytes) (r x : bool) :
  fs (snd (mkdirs l w)) !! p = Some (File data r x) ->
  fs w !! p = Some (File data r x).
Proof.
  revert w; induction l as [|d l IH]; intros w Hp; [exact Hp |].
  rewrite mkdirs_cons in Hp.
  destruct (fs w !! d) as [[]|] eqn:Hd; [exact Hp | now apply IH |].
  apply IH in Hp. cbn in Hp.
  destruct (decide (d = p)) as [-> | Hne].
  - rewrite lookup_insert_eq in Hp. discriminate.
  - now rewrite lookup_insert_ne in Hp.
Qed.

Lemma mkdirs_ok_dirs (l : list string) (w w' : world) :
  mkdirs l w = (Ok tt, w') -> Forall (fun d => fs w' !! d = Some Dir) l.
Proof.
  revert w; induction l as [|d l IH]; intros w H; [constructor |].
  rewrite mkdirs_cons in H.
  destruct (fs w !! d) as [[]|] eqn:Hd; [discriminate | |].
  - constructor; [| now apply (IH w)].
    replace w' with (snd (mkdirs l w)) by now rewrite H.
    now apply mkdirs_lookup.
  - constructor; [| now apply (IH _ H)].
    replace w' with (snd (mkdirs l (mk_world (<[d:=Dir]> (fs w)) (stdout w))))
      by now rewrite H.
    apply mkdirs_lookup. cbn. apply lookup_insert_eq.
Qed.

Lemma mkdirs_all_dirs (l : list string) (w : world) :
  Forall (fun d => fs w !! d = Some Dir) l -> mkdirs l w = (Ok tt, w).
Proof.
  induction 1 as [|d l Hd _ IH]; [reflexivity |].
  now rewrite mkdirs_cons, Hd.
Qed.

(** Made again in the world it left, the directories end the same way
    and nothing changes. *)
Lemma mkdirs_again (l : list string) (w w' w'' : world) (r : result unit) :
  mkdirs l w = (r, w') -> fs w'' = fs w' -> mkdirs l w'' = (r, w'').
Proof.
  revert w; induction l as [|d l IH]; intros w H Hfs.
  - injection H as <- _. reflexivity.
  - rewrite mkdirs_cons in H. rewrite mkdirs_cons.
    destruct (fs w !! d) as [[]|] eqn:Hd.
    + injection H as <- <-. now rewrite Hfs, Hd.
    + assert (Hd' : fs w'' !! d = Some Dir).
      { rewrite Hfs. replace w' with (snd (mkdirs l w)) by now rewrite H.
        now apply mkdirs_lookup. }
      rewrite Hd'. now apply (IH w).
    + assert (Hd' : fs w'' !! d = Some Dir).
      { rewrite Hfs.
        replace w' with (snd (mkdirs l (mk_world (<[d:=Dir]> (fs w)) (stdout w))))
          by now rewrite H.
        apply mkdirs_lookup. cbn. apply lookup_insert_eq. }
      rewrite Hd'. now apply (IH _ H).
Qed.

Lemma makedirs_again (name : string) (w w' w'' : world) (r : result unit) :
  makedirs name w = (r, w') -> fs w'' = fs w' -> makedirs name w'' = (r, w'').
Proof.
  unfold makedirs. destruct (str.is_empty name).
  - unfold_M. now intros [= <- <-].
  - apply mkdirs_again.
Qed.

(** Made where its directories are, [makedirs] has nothing to do. *)
Lemma makedirs_kept (name : string) (w w0 w2 : world) :
  makedirs name w = (Ok tt, w0) ->
  (forall d, fs w0 !! d = Some Dir -> fs w2 !! d = Some Dir) ->
  makedirs name w2 = (Ok tt, w2).
Proof.
  unfold makedirs. destruct (str.is_empty name); [discriminate |].
  intros H Hkeep. apply mkdirs_all_dirs.
  eapply Forall_impl; [exact (mkdirs_ok_dirs _ _ _ H) | exact Hkeep].
Qed.

Lemma makedirs_stdout (name : string) (w : world) :
  stdout (snd (makedirs name w)) = stdout w.
Proof.
  unfold makedirs. destruct (str.is_empty name); [reflexivity |].
  apply mkdirs_stdout.
Qed.

(** [makedirs] writes no file and touches none. *)
Lemma makedirs_same_files (name : string) (w : world) :
  same_files (fs (snd (makedirs name w))) (fs w).
Proof.
  unfold makedirs. destruct (str.is_empty name); [easy |].
  intros p data r x. split; [apply mkdirs_files | apply mkdirs_lookup].
Qed.

Lemma retrieved_same_files (url download_dir : string) (w w1 : world)
    (response : Response) :
  retrieved chk net url download_dir w response w1 ->
  same_files (fs w1) (fs w).
Proof.
  intros (w0 & parsed & Hdirs & _ & -> & _). cbn.
  replace w0 with (snd (makedirs download_dir w)) by now rewrite Hdirs.
  apply makedirs_same_files.
Qed.

(** *** The gates *)


(** *** Saving *)

#[local] Arguments msg_saved : simpl never.
#[local] Arguments msg_exists : simpl never.
#[local] Arguments posixpath.dirname : simpl never.
#[local] Arguments permission_denied : simpl never.
#[local] Arguments is_a_directory : simpl never.
#[local] Arguments no_such_file : simpl never.

(** Lines 99-107 by what is at the path *)
Lemma save_image_cases (filename filepath : string) (content : bytes)
    (w : world) :
  save_image filename filepath content w =
    let saved r :=
      (Ok (msg_saved filename filepath, true),
       mk_world (<[filepath := File content r true]> (fs w)) (stdout w)) in
    match fs w !! filepath with
    | None =>
        if is_dir (fs w) (posixpath.dirname filepath) then saved true
        else (Raise (no_such_file filepath), w)
    | Some Dir => (Raise (is_a_directory filepath), w)
    | Some (File data true x) =>
        if String.eqb (hashlib.md5_hexdigest content) (hashlib.md5_hexdigest data)
        then (Ok (msg_exists filename, true), w)
        else if x then saved true
        else (Raise (permission_denied filepath), w)
    | Some (File data false x) =>
        if x then saved false else (Raise (permission_denied filepath), w)
    end.
Proof.
  unfold save_image. unfold mbind, M_bind, bind.
  rewrite is_duplicate_image_cases.
  unfold write_file. unfold_M.
  destruct (fs w !! filepath) as [[data [|] [|] |]|] eqn:Hp;
    try destruct (String.eqb _ _); cbv beta iota zeta; rewrite ?Hp;
    try destruct (is_dir _ _); reflexivity.
Qed.

Lemma handle_world (e : exception) (w : world) :
  snd (handle download_handlers e w) = w.
Proof. now rewrite handlers_by_class. Qed.

(** Saving never ends with the message of the size limit. *)
Lemma save_image_outcome (filename filepath : string) (content : bytes)
    (w : world) :
  exists msg flag w',
    try_except (save_image filename filepath content) download_handlers w
      = (Ok (msg, flag), w') /\
    msg <> msg_too_large.
Proof.
  unfold try_except. rewrite save_image_cases. cbv zeta.
  destruct (fs w !! filepath) as [[data [|] [|] |]|];
    try destruct (String.eqb _ _); try destruct (is_dir _ _);
    rewrite ?handlers_by_class; cbn;
    do 3 eexists; (split; [reflexivity | discriminate]).
Qed.

(** Saving keeps the directories. *)
Lemma save_image_dirs (filename filepath : string) (content : bytes)
    (w : world) (d : string) :
  fs w !! d = Some Dir ->
  fs (snd (try_except (save_image filename filepath content)
             download_handlers w)) !! d = Some Dir.
Proof.
  intros Hd. unfold try_except. rewrite save_image_cases. cbv zeta.
  destruct (fs w !! filepath) as [[data [|] [|] |]|] eqn:Hp;
    try destruct (String.eqb _ _); try destruct (is_dir _ _);
    rewrite ?handlers_by_class; cbn; try exact Hd;
    (rewrite lookup_insert_ne; [exact Hd | congruence]).
Qed.

(** Saving again, in any world with the file system the first saving
    left, changes no file and no directory. *)
Lemma save_image_again (filename filepath : string) (content : bytes)
    (w w'' : world) :
  let w' := snd (try_except (save_image filename filepath content)
                   download_handlers w) in
  fs w'' = fs w' ->
  fs (snd (try_except (save_image filename filepath content)
             download_handlers w'')) = fs w'.
Proof.
  unfold try_except. rewrite !save_image_cases. cbv zeta.
  destruct (fs w !! filepath) as [[data [|] [|] |]|] eqn:Hp;
    try destruct (String.eqb _ _) eqn:Hmd5;
    try destruct (is_dir (fs w) _) eqn:Hdir;
    rewrite ?handlers_by_class; cbn [snd fs fst];
    intros Hfs; rewrite Hfs; cbn [fs];
    rewrite ?lookup_insert_eq, ?Hp, ?Hmd5, ?String.eqb_refl, ?Hdir,
      ?handlers_by_class; cbn [snd fs fst];
    rewrite ?Hfs; cbn [fs]; rewrite ?insert_insert_eq; reflexivity.
Qed.

(** Lines 83-107 under the [except] clauses: either the outcome is
    settled by the response alone and the world is left as it is, or the
    name is resolved and the image saved. *)
Lemma process_response_cases (url download_dir : string) (response : Response) :
  (exists out, forall w,
     try_except (process_response chk url download_dir response)
       download_handlers w = (Ok out, w)) \/
  (exists filename,
     get_filename_from_url chk url response = Ok filename /\
     forall w,
       try_except (process_response chk url download_dir response)
         download_handlers w =
       try_except (save_image filename
                     (posixpath.join download_dir filename) (content response))
         download_handlers w).
Proof.
  unfold process_response, try_except. unfold_M.
  destruct (raise_for_status response) as [[] | e];
    [| left; eexists; intros w; apply handlers_by_class].
  destruct (negb (str.startswith "image/" _));
    [left; eexists; intros w; reflexivity |].
  assert (Hrest :
    (exists out, forall w,
       (let (r, w') :=
          let (r, w') := (get_filename_from_url chk url response, w) in
          match r with
          | Ok a => save_image a (posixpath.join download_dir a) (content response) w'
          | Raise e => (Raise e, w')
          end in
        match r with
        | Ok a => (Ok a, w')
        | Raise e => handle download_handlers e w'
        end) = (Ok out, w)) \/
    (exists filename,
       get_filename_from_url chk url response = Ok filename /\
       forall w,
         (let (r, w') :=
            let (r, w') := (get_filename_from_url chk url response, w) in
            match r with
            | Ok a => save_image a (posixpath.join download_dir a) (content response) w'
            | Raise e => (Raise e, w')
            end in
          match r with
          | Ok a => (Ok a, w')
          | Raise e => handle download_handlers e w'
          end) =
         (let (r, w') :=
            save_image filename (posixpath.join download_dir filename)
              (content response) w in
          match r with
          | Ok a => (Ok a, w')
          | Raise e => handle download_handlers e w'
          end))).
  { destruct (get_filename_from_url chk url response) as [filename | e].
    - right. exists filename. split; reflexivity.
    - left. eexists. intros w. apply handlers_by_class. }
  destruct (headers_get (headers response) "Content-Length") as [v |];
    [| exact Hrest].
  destruct (str.is_empty v); [exact Hrest |].
  destruct (int v) as [n | e];
    [| left; eexists; intros w; apply handlers_by_class].
  destruct (size_limit <? n)%Z; [left; eexists; intros w; reflexivity |].
  exact Hrest.
Qed.

Lemma int_nonempty (v : string) (n : Z) : int v = Ok n -> str.is_empty v = false.
Proof. destruct v; [discriminate | reflexivity]. Qed.


(** *** Fetching again *)

Lemma process_response_accepted (url download_dir : string)
    (response : Response) (filename : string) (w : world) :
  passes_gates response ->
  get_filename_from_url chk url response = Ok filename ->
  try_except (process_response chk url download_dir response)
    download_handlers w =
  try_except (save_image filename (posixpath.join download_dir filename)
                (content response)) download_handlers w.
Proof.
  intros (Hstatus & Htype & Hlen) Hname.
  unfold try_except, process_response. unfold_M.
  rewrite Hstatus, Htype. cbn [negb].
  destruct (headers_get (headers response) "Content-Length") as [v |].
  - destruct Hlen as [-> | (n & Hint & Hn)].
    + cbn. now rewrite Hname.
    + rewrite (int_nonempty _ _ Hint), Hint.
      rewrite (proj2 (Z.ltb_ge size_limit n)) by exact Hn.
      now rewrite Hname.
  - now rewrite Hname.
Qed.

(** [download_image] by its first three steps *)
Lemma download_image_unfold (url download_dir : string) (w : world) :
  download_image chk net url download_dir w =
    match makedirs download_dir w with
    | (Raise e, w0) => handle download_handlers e w0
    | (Ok _, w0) =>
        match urllib.urlparse chk url with
        | Raise e => handle download_handlers e w0
        | Ok parsed =>
            let w1 := mk_world (fs w0) (stdout w0 ++ [connecting parsed]) in
            match net url with
            | Raise e => handle download_handlers e w1
            | Ok response =>
                try_except (process_response chk url download_dir response)
                  download_handlers w1
            end
        end
    end.
Proof.
  unfold download_image, try_except, download_body, print. unfold_M.
  destruct (makedirs download_dir w) as [[[] | e] w0]; [| reflexivity].
  destruct (urllib.urlparse chk url) as [parsed | e]; [| reflexivity].
  cbv beta iota zeta.
  destruct (net url) as [response | e]; reflexivity.
Qed.

(** C1, amended.  When the fetched bytes are those of a file at the
    resolved path that can be read, and the response has passed the
    gates, [download_image] writes nothing: it returns the message that
    the image already exists with the flag [True], and every file is as
    it was.  And in every world, fetching a second time leaves the file
    system as the first fetch left it. *)
Theorem idempotent_refetch (url download_dir : string) :
  (forall w w1 response filename writable,
     retrieved chk net url download_dir w response w1 ->
     passes_gates response ->
     get_filename_from_url chk url response = Ok filename ->
     fs w !! posixpath.join download_dir filename
       = Some (File (content response) true writable) ->
     download_image chk net url download_dir w
       = (Ok (msg_exists filename, true), w1) /\
     same_files (fs w1) (fs w)) /\
  (forall w,
     let w' := snd (download_image chk net url download_dir w) in
     fs (snd (download_image chk net url download_dir w')) = fs w').
Proof.
  split.
  - intros w w1 response filename writable Hret Hgates Hname Hfile.
    pose proof (retrieved_same_files _ _ _ _ _ Hret) as Hsame.
    split; [| exact Hsame].
    rewrite (download_image_retrieved _ _ _ _ _ Hret).
    rewrite (process_response_accepted _ _ _ _ _ Hgates Hname).
    unfold try_except. rewrite save_image_cases.
    rewrite (proj2 (Hsame _ _ _ _) Hfile), String.eqb_refl. reflexivity.
  - intros w. cbv zeta. rewrite (download_image_unfold url download_dir w).
    destruct (makedirs download_dir w) as [[[] | e] w0] eqn:Hdirs.
    2: { rewrite handle_world, download_image_unfold.
         rewrite (makedirs_again _ _ _ w0 _ Hdirs eq_refl).
         now rewrite handle_world. }
    destruct (urllib.urlparse chk url) as [parsed | e] eqn:Hparse.
    2: { rewrite handle_world, download_image_unfold.
         rewrite (makedirs_again _ _ _ w0 _ Hdirs eq_refl), Hparse.
         now rewrite handle_world. }
    cbv zeta. set (w1 := mk_world (fs w0) (stdout w0 ++ [connecting parsed])).
    destruct (net url) as [response | e] eqn:Hnet.
    2: { rewrite handle_world, download_image_unfold.
         rewrite (makedirs_again _ _ _ w1 _ Hdirs eq_refl), Hparse, Hnet.
         now rewrite handle_world. }
    destruct (process_response_cases url download_dir response)
      as [(out & Hout) | (filename & Hname & Hsave)].
    + rewrite Hout. cbn [snd]. rewrite download_image_unfold.
      rewrite (makedirs_again _ _ _ w1 _ Hdirs eq_refl), Hparse, Hnet.
      cbv zeta. now rewrite Hout.
    + rewrite Hsave.
      set (w2 := snd (try_except (save_image filename _ _) download_handlers w1)).
      rewrite download_image_unfold.
      rewrite (makedirs_kept _ _ _ w2 Hdirs), Hparse, Hnet.
      * cbv zeta. rewrite Hsave.
        apply (save_image_again filename _ (content response) w1). reflexivity.
      * intros d Hd. apply save_image_dirs. exact Hd.
Qed.

End orchestrator_properties.

(** * The program at work *)

(** ** The resolver *)


(** C6 as stated fails: [urlparse] raises on a URL with an unmatched
    bracket, and so does the resolver. *)
Lemma unmatched_bracket_raises :
  get_filename_from_url any_bracketed_host "http://["
    (image_response "image/png" sunset)
  = Raise (new_exception ValueError "Invalid IPv6 URL").
Proof. vm_compute. reflexivity. Qed.

(** C6, amended, at a URL without a name in its path *)
Lemma get_filename_total_on_parsed_witness :
  exists name,
    get_filename_from_url any_bracketed_host "https://example.com/gallery/42"
      (mk_Response 200 ∅ sunset) = Ok name /\
    name <> "" /\ str.contains "." name = true.
Proof.
  apply (get_filename_total_on_parsed any_bracketed_host _ _
           (urllib.mk_ParseResult "https" "example.com" "/gallery/42" "" "" "")).
  vm_compute. reflexivity.
Defined.

(** C9 at [https://example.com/gallery/42] *)
Lemma disposition_name_witness :
  get_filename_from_url any_bracketed_host "https://example.com/gallery/42"
    (mk_Response 200
       {[ "content-disposition" := attachment_pic_png ]} sunset)
  = Ok "pic.png".
Proof.
  apply (disposition_name any_bracketed_host _ _
           (urllib.mk_ParseResult "https" "example.com" "/gallery/42" "" "" "")
           "42" attachment_pic_png).
  - vm_compute. reflexivity.
  - split; [reflexivity |]. right. exists "/gallery". reflexivity.
  - right. reflexivity.
  - reflexivity.
  - reflexivity.
  - reflexivity.
Defined.

(** C2 as stated fails: a type that contains [image/] without starting
    with it gives its second piece as the extension, not [bin]. *)
Lemma type_containing_image_is_not_bin :
  str.startswith "image/" "x-image/png" = false /\
  get_filename_from_url any_bracketed_host "https://example.com/x"
    (image_response "x-image/png" sunset)
  = Ok "downloaded_image_fce16738.png".
Proof. split; vm_compute; reflexivity. Qed.

(** C2, amended, at [https://example.com/x]: [bin] for [text/html],
    [jpg] for [image/jpeg] *)
Lemma generated_extension_witness :
  get_filename_from_url any_bracketed_host "https://example.com/x"
    (image_response "text/html" sunset)
  = Ok "downloaded_image_fce16738.bin" /\
  get_filename_from_url any_bracketed_host "https://example.com/x"
    (image_response "image/jpeg" sunset)
  = Ok "downloaded_image_fce16738.jpg".
Proof.
  pose (parsed := urllib.mk_ParseResult "https" "example.com" "/x" "" "" "").
  split.
  - refine (eq_trans
              (proj1 (proj2 (generated_extension any_bracketed_host _
                               (image_response "text/html" sunset) parsed _ _))
                 _) _);
      vm_compute; reflexivity.
  - refine (eq_trans
              (proj1 (proj2 (proj2
                 (generated_extension any_bracketed_host _
                    (image_response "image/jpeg" sunset) parsed _ _))) _) _);
      vm_compute; reflexivity.
Defined.

(** ** The duplicate detector *)

(** C7 in three worlds: no file, the same bytes in a readable file, a
    file that cannot be read *)
Lemma duplicate_detector_witness :
  is_duplicate_image "Fetched_Images/sunset.jpg" sunset empty_world
    = (Ok false, empty_world) /\
  (exists b,
     is_duplicate_image "Fetched_Images/sunset.jpg" sunset
       (world_with sunset true true) = (Ok b, world_with sunset true true) /\
     (b = true <->
      hashlib.md5_hexdigest sunset = hashlib.md5_hexdigest sunset)) /\
  is_duplicate_image "Fetched_Images/sunset.jpg" sunset
    (world_with sunset false true)
    = (Ok false, world_with sunset false true).
Proof.
  split; [| split].
  - apply duplicate_detector. reflexivity.
  - apply (proj1 (proj2 (duplicate_detector _ _ _)) sunset true). reflexivity.
  - apply (proj2 (proj2 (duplicate_detector _ _ _))
             (permission_denied "Fetched_Images/sunset.jpg")).
    + eexists. reflexivity.
    + reflexivity.
Defined.

(** ** The orchestrator *)

(** C3 at a server that is too slow: the body raises [ReadTimeout], and
    the caller gets the message of the timeout. *)
Lemma failures_are_contained_witness :
  exists msg,
    download_image any_bracketed_host too_slow "https://example.com/a.png"
      "Fetched_Images" empty_world
    = (Ok (msg, false),
       mk_world {[ "Fetched_Images" := Dir ]}
         ["Connecting to the community at example.com..."]) /\
    msg ∈ failure_messages
            (new_exception ReadTimeout "Read timed out. (read timeout=15)") /\
    msg <> "".
Proof.
  apply (proj2 (failures_are_contained any_bracketed_host too_slow
                  "https://example.com/a.png" "Fetched_Images" empty_world)).
  vm_compute. reflexivity.
Defined.

(** C8 as stated fails: a status 300 is not 2xx, and the image is saved. *)
Lemma status_300_is_saved :
  fst (download_image any_bracketed_host
         (always (mk_Response 300 {[ "content-type" := "image/png" ]} sunset))
         "https://example.com/a.png" "Fetched_Images" empty_world)
  = Ok (msg_saved "a.png" "Fetched_Images/a.png", true).
Proof. vm_compute. reflexivity. Qed.

(** C8, amended, at a status 404 *)
Lemma http_error_status_witness :
  download_image any_bracketed_host (always (mk_Response 404 ∅ []))
    "https://example.com/a.png" "Fetched_Images" empty_world
  = (Ok ("✗ HTTP error: The community server responded with 404", false),
     mk_world {[ "Fetched_Images" := Dir ]}
       ["Connecting to the community at example.com..."]).
Proof.
  apply (http_error_status any_bracketed_host (always (mk_Response 404 ∅ []))
           "https://example.com/a.png" "Fetched_Images" empty_world _
           (mk_Response 404 ∅ [])).
  - exists (mk_world {[ "Fetched_Images" := Dir ]} []),
      (urllib.mk_ParseResult "https" "example.com" "/a.png" "" "" "").
    repeat split; vm_compute; reflexivity.
  - cbn. lia.
Defined.



(** C1 as stated fails: the same bytes are at the resolved path, in a
    file that cannot be read.  When it cannot be written either, the
    outcome is a failure; when it can, it is written again. *)
Lemma unreadable_copy_is_not_skipped :
  fs (world_with sunset false false) !! "Fetched_Images/sunset.jpg"
    = Some (File sunset false false) /\
  fst (download_image any_bracketed_host
         (always (image_response "image/jpeg" sunset))
         "https://example.com/photos/sunset.jpg" "Fetched_Images"
         (world_with sunset false false))
  = Ok (msg_unexpected
          "[Errno 13] Permission denied: 'Fetched_Images/sunset.jpg'", false) /\
  fst (download_image any_bracketed_host
         (always (image_response "image/jpeg" sunset))
         "https://example.com/photos/sunset.jpg" "Fetched_Images"
         (world_with sunset false true))
  = Ok (msg_saved "sunset.jpg" "Fetched_Images/sunset.jpg", true).
Proof. repeat split; vm_compute; reflexivity. Qed.

(** C1, amended, where [sunset.jpg] is there and can be read: nothing is
    written; and from the empty world, the second fetch changes nothing. *)
Lemma idempotent_refetch_witness :
  let fetch :=
    download_image any_bracketed_host
      (always (image_response "image/jpeg" sunset))
      "https://example.com/photos/sunset.jpg" "Fetched_Images" in
  fetch (world_with sunset true true)
  = (Ok (msg_exists "sunset.jpg", true),
     mk_world (fs (world_with sunset true true))
       ["Connecting to the community at example.com..."]) /\
  fs (snd (fetch (snd (fetch empty_world)))) = fs (snd (fetch empty_world)).
Proof.
  pose (parsed := urllib.mk_ParseResult "https" "example.com"
                    "/photos/sunset.jpg" "" "" "").
  split.
  - apply (proj1 (idempotent_refetch any_bracketed_host
                    (always (image_response "image/jpeg" sunset))
                    "https://example.com/photos/sunset.jpg" "Fetched_Images")
             (world_with sunset true true) _
             (image_response "image/jpeg" sunset) "sunset.jpg" true).
    + exists (world_with sunset true true), parsed.
      repeat split; vm_compute; reflexivity.
    + repeat split; vm_compute; reflexivity.
    + vm_compute. reflexivity.
    + reflexivity.
  - apply (proj2 (idempotent_refetch any_bracketed_host
                    (always (image_response "image/jpeg" sunset))
                    "https://example.com/photos/sunset.jpg" "Fetched_Images")).
Defined.

(** * Further properties *)

(** ** Names *)

Lemma all_chars_not_in (P : ascii -> bool) (c : ascii) (s : string) :
  str.all_chars P s = true -> P c = false -> str.char_in c s = false.
Proof.
  intros Hall Hc. induction s as [|a s IH]; [reflexivity |].
  cbn in *. apply andb_true_iff in Hall as [Ha Hs].
  rewrite (IH Hs), orb_false_r.
  destruct (Ascii.eqb_spec a c) as [-> |]; congruence.
Qed.

Lemma all_chars_slice_to (P : ascii -> bool) (n : nat) (s : string) :
  str.all_chars P s = true -> str.all_chars P (slice_to n s) = true.
Proof.
  revert s; induction n as [|n IH]; intros [|a s]; cbn; try reflexivity.
  intros H. apply andb_true_iff in H as [Ha Hs]. now rewrite Ha, IH.
Qed.

Lemma hex_digit_is_hex (n : N) :
  (n < 16)%N -> is_hex_digit (hashlib.hex_digit n) = true.
Proof.
  intros Hn.
  assert (Hall : forallb (fun k => is_hex_digit (hashlib.hex_digit (N.of_nat k)))
                   (seq 0 16) = true) by reflexivity.
  rewrite forallb_forall in Hall.
  specialize (Hall (N.to_nat n)). rewrite N2Nat.id in Hall.
  apply Hall, in_seq. lia.
Qed.

Lemma hex_is_hex (l : list N) :
  Forall (fun b => (b < 256)%N) l ->
  str.all_chars is_hex_digit (hashlib.hex l) = true.
Proof.
  induction 1 as [|b l Hb _ IH]; [reflexivity |].
  cbn [hashlib.hex str.all_chars].
  rewrite !hex_digit_is_hex, IH; [reflexivity | |].
  - change 15%N with (N.ones 4). rewrite N.land_ones. now apply N.mod_lt.
  - rewrite N.shiftr_div_pow2. apply N.Div0.div_lt_upper_bound. exact Hb.
Qed.

Lemma url_hash_is_hex (url : string) :
  str.all_chars is_hex_digit (url_hash url) = true.
Proof.
  unfold url_hash, hashlib.md5_hexdigest.
  apply all_chars_slice_to, hex_is_hex, digest_bound.
Qed.

(** X1.  The hash segment of a generated name is made of exactly 8
    characters, each a digit or a letter from [a] to [f], whatever the
    URL is. *)
Theorem hash_segment_hex (url : string) :
  String.length (url_hash url) = 8 /\
  str.all_chars is_hex_digit (url_hash url) = true.
Proof.
  split.
  - unfold url_hash, hashlib.md5_hexdigest. apply slice_to_length.
    rewrite hex_length, digest_length. lia.
  - apply url_hash_is_hex.
Qed.





Section name_properties.

Variable chk : string -> bool.


(** X4.  When the name is generated and the [Content-Type] is
    [image/jpeg] followed by parameters, [jpeg] is not turned into [jpg]:
    the extension is [jpeg] with the parameters. *)
Theorem jpeg_with_parameters (url : string) (response : Response)
    (parsed : urllib.ParseResult) (parameters : string) :
  urllib.urlparse chk url = Ok parsed ->
  no_clear_name (name_from_url_or_header parsed response) = true ->
  headers_get_default (headers response) "Content-Type" ""
    = "image/jpeg" +:+ parameters ->
  parameters <> "" ->
  str.char_in "/" parameters = false ->
  get_filename_from_url chk url response =
    Ok ("downloaded_image_" +:+ url_hash url +:+ ".jpeg" +:+ parameters).
Proof.
  intros Hparse Hgen Htype Hne Hslash.
  rewrite (get_filename_parsed _ _ _ _ Hparse). cbv zeta. rewrite Hgen.
  unfold generated_name. rewrite Htype.
  replace (str.contains "image/" ("image/jpeg" +:+ parameters)) with true
    by (symmetry; apply (contains_middle "image/" "" ("jpeg" +:+ parameters))).
  pose proof (split_first "" "/" "image" ("jpeg" +:+ parameters) eq_refl)
    as Hsplit.
  change ("" +:+ str.ch "/") with "/" in Hsplit. cbv zeta in Hsplit.
  change ("image" +:+ "/" +:+ "jpeg" +:+ parameters)
    with ("image/jpeg" +:+ parameters) in Hsplit.
  rewrite Hsplit, split_none.
  2: { change "/" with (str.ch "/"). rewrite contains_char.
       rewrite char_in_app. exact Hslash. }
  cbn [str.item nth].
  replace (String.eqb ("jpeg" +:+ parameters) "jpeg") with false;
    [reflexivity |].
  symmetry. apply String.eqb_neq. intros H.
  apply (f_equal String.length) in H. rewrite length_append in H.
  destruct parameters; [congruence | cbn in H; lia].
Qed.

End name_properties.

(** ** The orchestrator, gate by gate *)

(** An exception that is no [RequestException] reaches the last clause. *)
Lemma handle_unexpected (e : exception) (w : world) :
  isinstance e RequestException = false ->
  handle download_handlers e w = (Ok (msg_unexpected (exc_str e), false), w).
Proof.
  destruct e as [c detail status]. destruct c; cbn; intros H;
    try discriminate; reflexivity.
Qed.

(** Case analysis on a scrutinee that has no [match] inside *)
Ltac destruct_scrutinee :=
  match goal with
  | |- context [match ?x with _ => _ end] =>
      lazymatch x with
      | context [match _ with _ => _ end] => fail
      | _ => destruct x eqn:?
      end
  end.

Lemma int_raises (v : string) (e : exception) :
  int v = Raise e -> exc_class e = ValueError.
Proof.
  unfold int, new_exception. cbv zeta.
  repeat destruct_scrutinee; intros [= <-]; reflexivity.
Qed.

Lemma urlparse_raises (chk : string -> bool) (url : string) (e : exception) :
  urllib.urlparse chk url = Raise e -> exc_class e = ValueError.
Proof.
  unfold urllib.urlparse, urllib.urlsplit, urllib.check_bracketed_netloc,
    urllib.invalid_ipv6, new_exception. cbv zeta.
  repeat destruct_scrutinee; intros [= <-]; reflexivity.
Qed.




Section gate_properties.

Variable chk : string -> bool.
Variable net : string -> result Response.

(** X5.  A response that has passed the check of the status and whose
    [Content-Type] does not start with [image/] is refused: the flag is
    [False], the message contains the type as it was received, and no
    file is written or touched. *)
Theorem content_type_gate (url download_dir : string) (w w1 : world)
    (response : Response) :
  retrieved chk net url download_dir w response w1 ->
  raise_for_status response = Ok tt ->
  let content_type := headers_get_default (headers response) "Content-Type" "" in
  str.startswith "image/" content_type = false ->
  download_image chk net url download_dir w
    = (Ok (msg_not_image content_type, false), w1) /\
  str.contains content_type (msg_not_image content_type) = true /\
  same_files (fs w1) (fs w).
Proof.
  intros Hret Hstatus content_type Htype.
  split; [| split].
  - rewrite (download_image_retrieved _ _ _ _ _ _ _ Hret).
    unfold try_except, process_response. unfold_M.
    fold content_type. now rewrite Hstatus, Htype.
  - apply (contains_middle content_type
             "✗ Respectful warning: The URL does not point to an image (Content-Type: "
             ").").
  - exact (retrieved_same_files _ _ _ _ _ _ _ Hret).
Qed.

(** X6.  Of a response that has reached the gate of the size with a
    [Content-Length] that is not empty: when [int] refuses the value, the
    outcome is the failure of an unexpected error with the text of the
    [ValueError], and no file is written; when the value reads as [n],
    the outcome is the failure of the size limit exactly when [n] is
    above 10485760. *)
Theorem content_length_gate (url download_dir : string) (w w1 : world)
    (response : Response) (v : string) :
  retrieved chk net url download_dir w response w1 ->
  raise_for_status response = Ok tt ->
  str.startswith "image/"
    (headers_get_default (headers response) "Content-Type" "") = true ->
  headers_get (headers response) "Content-Length" = Some v ->
  v <> "" ->
  (forall e,
     int v = Raise e ->
     download_image chk net url download_dir w
       = (Ok (msg_unexpected (exc_str e), false), w1) /\
     same_files (fs w1) (fs w)) /\
  (forall n,
     int v = Ok n ->
     (fst (download_image chk net url download_dir w)
        = Ok (msg_too_large, false)
      <-> (10485760 < n)%Z)).
Proof.
  intros Hret Hstatus Htype Hlen Hne.
  rewrite (download_image_retrieved _ _ _ _ _ _ _ Hret).
  apply is_empty_false in Hne.
  split.
  - intros e Hint.
    split; [| exact (retrieved_same_files _ _ _ _ _ _ _ Hret)].
    unfold try_except, process_response. unfold_M.
    rewrite Hstatus, Htype, Hlen, Hne, Hint. cbn [negb].
    apply handle_unexpected. unfold isinstance.
    now rewrite (int_raises _ _ Hint).
  - intros n Hint.
    destruct (Z.ltb_spec size_limit n) as [Hbig | Hsmall].
    + split; [intros _; exact Hbig | intros _].
      unfold try_except, process_response. unfold_M.
      rewrite Hstatus, Htype, Hlen, Hne, Hint. cbn [negb].
      now rewrite (proj2 (Z.ltb_lt size_limit n) Hbig).
    + split; [| unfold size_limit in Hsmall; lia].
      destruct Hret as (w0 & parsed & _ & Hparse & _ & _).
      pose proof (get_filename_parsed chk url response parsed Hparse) as Hname.
      cbv zeta in Hname.
      unfold try_except at 1, process_response. unfold_M.
      rewrite Hstatus, Htype, Hlen, Hne, Hint. cbn [negb].
      rewrite (proj2 (Z.ltb_ge size_limit n) Hsmall), Hname.
      match goal with
      | |- fst (let (r, w') := save_image ?fn ?fp ?c w1 in _) = _ -> _ =>
          destruct (save_image_outcome fn fp c w1)
            as (msg & flag & w' & Hsave & Hmsg)
      end.
      unfold try_except in Hsave. rewrite Hsave. cbn. congruence.
Qed.

(** X7.  When the directory is made, the URL parsed and [requests.get]
    raises, the outcome has the flag [False] and a message that goes by
    the class of the exception: the timeout for [Timeout], [ReadTimeout]
    and also [ConnectTimeout] (a connection error as well, but the clause
    of the timeout comes first); the connection error for
    [ConnectionError]; the network error with the text of the exception
    for the other classes of [requests]; the unexpected error with its
    text for any other class.  Nothing but the directory is made. *)
Theorem network_failures_by_class (url download_dir : string) (w w0 : world)
    (parsed : urllib.ParseResult) (e : exception) :
  makedirs download_dir w = (Ok tt, w0) ->
  urllib.urlparse chk url = Ok parsed ->
  net url = Raise e ->
  let w1 := mk_world (fs w0) (stdout w0 ++ [connecting parsed]) in
  let outcome msg :=
    download_image chk net url download_dir w = (Ok (msg, false), w1) in
  (exc_class e ∈ [Timeout; ReadTimeout; ConnectTimeout] -> outcome msg_timeout) /\
  (exc_class e = ConnectionError -> outcome msg_connection_error) /\
  (exc_class e ∈ [RequestException; TooManyRedirects] ->
   outcome (msg_network_error (exc_str e))) /\
  (isinstance e RequestException = false ->
   outcome (msg_unexpected (exc_str e))) /\
  same_files (fs w1) (fs w).
Proof.
  intros Hdirs Hparse Hnet w1 outcome. unfold outcome.
  assert (Hsame : same_files (fs w1) (fs w)).
  { cbn. replace w0 with (snd (makedirs download_dir w)) by now rewrite Hdirs.
    apply makedirs_same_files. }
  rewrite download_image_unfold, Hdirs, Hparse, Hnet. cbv zeta.
  rewrite handlers_by_class. fold w1.
  destruct e as [c detail status]. cbn [exc_class exc_str exc_status_code].
  split; [| split; [| split; [| split; [| exact Hsame]]]].
  - rewrite !elem_of_cons, elem_of_nil.
    intros [-> | [-> | [-> | []]]]; reflexivity.
  - intros ->. reflexivity.
  - rewrite !elem_of_cons, elem_of_nil. intros [-> | [-> | []]]; reflexivity.
  - intros Hc. destruct c; try reflexivity; discriminate.
Qed.

(** X8.  When the directory is made and [urlparse] raises on the URL,
    the outcome is the failure of an unexpected error with the text of
    the exception, whatever the server would answer; the directory stays
    made and no file is written. *)
Theorem unparsable_url_fails (url download_dir : string) (w w0 : world)
    (e : exception) :
  makedirs download_dir w = (Ok tt, w0) ->
  urllib.urlparse chk url = Raise e ->
  download_image chk net url download_dir w
    = (Ok (msg_unexpected (exc_str e), false), w0) /\
  same_files (fs w0) (fs w).
Proof.
  intros Hdirs Hparse. split.
  - rewrite download_image_unfold, Hdirs, Hparse.
    apply handle_unexpected. unfold isinstance.
    now rewrite (urlparse_raises _ _ _ Hparse).
  - replace w0 with (snd (makedirs download_dir w)) by now rewrite Hdirs.
    apply makedirs_same_files.
Qed.



(** X11.  When the response has passed the gates and the resolved path
    holds a file that can be read and written and whose MD5 digest
    differs from that of the body, the file is overwritten with the body
    and the outcome is the same success as for a new file. *)
Theorem different_content_is_overwritten (url download_dir : string)
    (w w1 : world) (response : Response) (filename : string) (data : bytes) :
  retrieved chk net url download_dir w response w1 ->
  passes_gates response ->
  get_filename_from_url chk url response = Ok filename ->
  let filepath := posixpath.join download_dir filename in
  fs w !! filepath = Some (File data true true) ->
  hashlib.md5_hexdigest (content response) <> hashlib.md5_hexdigest data ->
  download_image chk net url download_dir w
    = (Ok (msg_saved filename filepath, true),
       mk_world (<[filepath := File (content response) true true]> (fs w1))
         (stdout w1)).
Proof.
  intros Hret Hgates Hname filepath Hfile Hdiff.
  rewrite (download_image_retrieved _ _ _ _ _ _ _ Hret).
  rewrite (process_response_accepted _ _ _ _ _ _ Hgates Hname).
  unfold try_except. fold filepath. rewrite save_image_cases.
  rewrite (proj2 (retrieved_same_files _ _ _ _ _ _ _ Hret _ _ _ _) Hfile).
  now rewrite (proj2 (String.eqb_neq _ _) Hdiff).
Qed.


End gate_properties.

(** ** The orchestrator as a whole *)

Section whole_properties.

Variable chk : string -> bool.
Variable net : string -> result Response.

(** Lines 83-107 under the [except] clauses, gate after gate *)
Lemma process_response_eq (url download_dir : string) (response : Response)
    (w : world) :
  try_except (process_response chk url download_dir response)
    download_handlers w =
  match raise_for_status response with
  | Raise e => handle download_handlers e w
  | Ok _ =>
      let content_type :=
        headers_get_default (headers response) "Content-Type" "" in
      if negb (str.startswith "image/" content_type)
      then (Ok (msg_not_image content_type, false), w)
      else
        match
          match headers_get (headers response) "Content-Length" with
          | None => Ok false
          | Some content_length =>
              if str.is_empty content_length then Ok false
              else match int content_length with
                   | Ok n => Ok (size_limit <? n)%Z
                   | Raise e => Raise e
                   end
          end
        with
        | Raise e => handle download_handlers e w
        | Ok true => (Ok (msg_too_large, false), w)
        | Ok false =>
            match get_filename_from_url chk url response with
            | Raise e => handle download_handlers e w
            | Ok filename =>
                try_except
                  (save_image filename
                     (posixpath.join download_dir filename) (content response))
                  download_handlers w
            end
        end
  end.
Proof.
  unfold try_except, process_response. unfold_M.
  destruct (raise_for_status response) as [[] | e]; [| reflexivity].
  cbv zeta. destruct (negb (str.startswith "image/" _)); [reflexivity |].
  destruct (headers_get (headers response) "Content-Length") as [v |].
  - destruct (str.is_empty v).
    + now destruct (get_filename_from_url chk url response).
    + destruct (int v) as [n | e]; [| reflexivity].
      destruct (size_limit <? n)%Z; [reflexivity |].
      now destruct (get_filename_from_url chk url response).
  - now destruct (get_filename_from_url chk url response).
Qed.

(** The messages of the [except] clauses come without the mark of
    success. *)
Lemma handle_flag (e : exception) (w w' : world) (msg : string) (flag : bool) :
  handle download_handlers e w = (Ok (msg, flag), w') ->
  flag = str.startswith "✓" msg.
Proof.
  rewrite handlers_by_class. intros [= <- <- _].
  repeat destruct (isinstance e _); reflexivity.
Qed.

Lemma save_image_flag (filename filepath : string) (content : bytes)
    (w w' : world) (msg : string) (flag : bool) :
  try_except (save_image filename filepath content) download_handlers w
    = (Ok (msg, flag), w') ->
  flag = str.startswith "✓" msg.
Proof.
  unfold try_except. rewrite save_image_cases. cbv zeta.
  destruct (fs w !! filepath) as [[data [|] [|] |]|];
    try destruct (String.eqb _ _); try destruct (is_dir _ _);
    try (intros [= <- <- _]; reflexivity); apply handle_flag.
Qed.

(** X13.  The flag that [download_image] returns is [True] exactly when
    its message starts with the mark of success: the caller that counts
    the flags counts the messages of success. *)
Theorem flag_matches_message (url download_dir : string) (w w' : world)
    (msg : string) (flag : bool) :
  download_image chk net url download_dir w = (Ok (msg, flag), w') ->
  flag = str.startswith "✓" msg.
Proof.
  rewrite download_image_unfold.
  destruct (makedirs download_dir w) as [[[] | e] w0]; [| apply handle_flag].
  destruct (urllib.urlparse chk url) as [parsed | e]; [| apply handle_flag].
  cbv zeta. destruct (net url) as [response | e]; [| apply handle_flag].
  rewrite process_response_eq.
  destruct (raise_for_status response) as [[] | e]; [| apply handle_flag].
  cbv zeta. destruct (negb (str.startswith "image/" _));
    [intros [= <- <- _]; reflexivity |].
  destruct (match headers_get (headers response) "Content-Length" with
            | Some _ => _ | None => _ end) as [[|] | e];
    [intros [= <- <- _]; reflexivity | | apply handle_flag].
  destruct (get_filename_from_url chk url response) as [filename | e];
    [apply save_image_flag | apply handle_flag].
Qed.






End whole_properties.

(** ** What is printed does not count *)

Section output_properties.

Variable chk : string -> bool.
Variable net : string -> result Response.

Lemma mkdirs_fs_only (l : list string) (w v : world) :
  fs w = fs v ->
  fst (mkdirs l w) = fst (mkdirs l v) /\
  fs (snd (mkdirs l w)) = fs (snd (mkdirs l v)).
Proof.
  revert w v; induction l as [|d l IH]; intros w v Hfs; [easy |].
  rewrite !mkdirs_cons, <- Hfs.
  destruct (fs w !! d) as [[]|]; [easy | now apply IH |].
  apply IH. cbn. now rewrite Hfs.
Qed.

Lemma makedirs_fs_only (name : string) (w v : world) :
  fs w = fs v ->
  fst (makedirs name w) = fst (makedirs name v) /\
  fs (snd (makedirs name w)) = fs (snd (makedirs name v)).
Proof.
  unfold makedirs. destruct (str.is_empty name); [easy |]. apply mkdirs_fs_only.
Qed.

Lemma handle_fs_only (e : exception) (w v : world) :
  fs w = fs v ->
  fst (handle download_handlers e w) = fst (handle download_handlers e v) /\
  fs (snd (handle download_handlers e w))
    = fs (snd (handle download_handlers e v)).
Proof. now rewrite !handlers_by_class. Qed.

Lemma save_image_fs_only (filename filepath : string) (content : bytes)
    (w v : world) :
  fs w = fs v ->
  let save := try_except (save_image filename filepath content)
                download_handlers in
  fst (save w) = fst (save v) /\ fs (snd (save w)) = fs (snd (save v)).
Proof.
  intros Hfs. cbv zeta. unfold try_except. rewrite !save_image_cases.
  cbv zeta. rewrite <- Hfs.
  destruct (fs w !! filepath) as [[data [|] [|] |]|];
    try destruct (String.eqb _ _); try destruct (is_dir _ _);
    rewrite ?handlers_by_class; cbn [fst snd fs]; rewrite ?Hfs; easy.
Qed.

(** The outcome of [download_image] and the file system it leaves depend
    on the file system alone, not on what has been printed. *)
Lemma download_image_fs_only (url download_dir : string) (w v : world) :
  fs w = fs v ->
  fst (download_image chk net url download_dir w)
    = fst (download_image chk net url download_dir v) /\
  fs (snd (download_image chk net url download_dir w))
    = fs (snd (download_image chk net url download_dir v)).
Proof.
  intros Hfs. rewrite !download_image_unfold.
  destruct (makedirs_fs_only download_dir w v Hfs) as [Hr Hm].
  destruct (makedirs download_dir w) as [r w0],
           (makedirs download_dir v) as [r' v0].
  cbn in Hr, Hm. subst r'.
  destruct r as [[] | e]; [| now apply handle_fs_only].
  destruct (urllib.urlparse chk url) as [parsed | e];
    [| now apply handle_fs_only].
  cbv zeta. destruct (net url) as [response | e];
    [| now apply handle_fs_only].
  rewrite !process_response_eq.
  destruct (raise_for_status response) as [[] | e];
    [| now apply handle_fs_only].
  cbv zeta. destruct (negb (str.startswith "image/" _)); [easy |].
  destruct (match headers_get (headers response) "Content-Length" with
            | Some _ => _ | None => _ end) as [[|] | e];
    [easy | | now apply handle_fs_only].
  destruct (get_filename_from_url chk url response) as [filename | e];
    [| now apply handle_fs_only].
  now apply save_image_fs_only.
Qed.

(** [download_image] returns to its caller. *)
Lemma download_image_returns (url download_dir : string) (w : world) :
  exists out w', download_image chk net url download_dir w = (Ok out, w').
Proof.
  unfold download_image, try_except.
  destruct (download_body chk net url download_dir w) as [[out | e] w1];
    [eauto |].
  rewrite handlers_by_class. eauto.
Qed.

End output_properties.

(** ** The driver *)

Lemma char_in_lstrip (c : ascii) (chars s : string) :
  str.char_in c s = false -> str.char_in c (str.lstrip chars s) = false.
Proof.
  induction s as [|a s IH]; [reflexivity |]. cbn [str.lstrip].
  destruct (str.char_in a chars); [| easy].
  cbn. intros H. apply orb_false_iff in H as [_ Hs]. now apply IH.
Qed.

Lemma char_in_remove_char (c x : ascii) (s : string) :
  str.char_in c s = false -> str.char_in c (str.remove_char x s) = false.
Proof.
  induction s as [|a s IH]; [reflexivity |]. cbn.
  intros H. apply orb_false_iff in H as [Ha Hs].
  destruct (Ascii.eqb a x); cbn; rewrite ?Ha; now apply IH.
Qed.

Lemma partition_none (c : ascii) (s : string) :
  str.char_in c s = false -> str.partition c s = None.
Proof.
  induction s as [|a s IH]; [reflexivity |]. cbn.
  intros H. apply orb_false_iff in H as [Ha Hs]. now rewrite Ha, (IH Hs).
Qed.

Section driver_properties.

Variable chk : string -> bool.
Variable net : string -> result Response.

(** X17.  An entry without a colon is no full URL, whatever else it
    holds: [urlparse] finds no scheme in it, and the driver does not
    fetch it. *)
Theorem entry_without_colon (url : string) :
  str.char_in ":" url = false -> full_url chk url = false.
Proof.
  intros Hcolon.
  unfold full_url, urllib.urlparse, urllib.urlsplit.
  rewrite partition_none
    by (repeat apply char_in_remove_char; now apply char_in_lstrip).
  cbv zeta beta iota.
  repeat destruct_scrutinee; reflexivity.
Qed.

(** One turn of the loop of lines 138-155 *)
Lemma process_urls_cons (total i : nat) (url : string) (rest : list string)
    (n : nat) (w : world) :
  process_urls chk net total i (url :: rest) n w =
    if str.is_empty url then process_urls chk net total (S i) rest n w
    else
      let w1 := mk_world (fs w) (stdout w ++ [msg_processing i total]) in
      match urllib.urlparse chk url with
      | Raise e => (Raise e, w1)
      | Ok parsed =>
          if str.is_empty (urllib.scheme parsed)
             || str.is_empty (urllib.netloc parsed)
          then process_urls chk net total (S i) rest n
                 (mk_world (fs w) (stdout w1 ++ [msg_invalid_url url]))
          else
            match download_image chk net url "Fetched_Images" w1 with
            | (Ok outcome, w2) =>
                process_urls chk net total (S i) rest
                  (if snd outcome then S n else n)
                  (mk_world (fs w2) (stdout w2 ++ [fst outcome]))
            | (Raise e, w2) => (Raise e, w2)
            end
      end.
Proof.
  cbn [process_urls]. destruct (str.is_empty url); [reflexivity |].
  unfold print. unfold_M. cbv zeta.
  destruct (urllib.urlparse chk url) as [parsed | e]; [| reflexivity].
  destruct (_ || _); [reflexivity |].
  cbv beta. now destruct (download_image _ _ _ _ _) as [[outcome | e] w2].
Qed.

Lemma full_url_parsed (url : string) (parsed : urllib.ParseResult) :
  urllib.urlparse chk url = Ok parsed ->
  full_url chk url =
    negb (str.is_empty (urllib.scheme parsed)
          || str.is_empty (urllib.netloc parsed)).
Proof. unfold full_url. intros ->. now rewrite negb_orb. Qed.

Lemma full_url_empty : full_url chk "" = false.
Proof. reflexivity. Qed.

(** The loop over entries that all parse: it ends, the file system is
    the one the fetches of the full URLs leave, and the count has grown
    by the number of those that succeeded. *)
Lemma process_urls_parsed (urls : list string) :
  Forall (parses chk) urls ->
  forall total i n w v,
    fs w = fs v ->
    exists w',
      process_urls chk net total i urls n w
        = (Ok (n + successes chk net (List.filter (full_url chk) urls) v), w') /\
      fs w' = fs (fetch_each chk net (List.filter (full_url chk) urls) v).
Proof.
  induction 1 as [|url rest Hurl _ IH]; intros total i n w v Hfs.
  - exists w. cbn. rewrite Nat.add_0_r. split; [reflexivity | exact Hfs].
  - rewrite process_urls_cons.
    destruct (str.is_empty url) eqn:Hempty.
    { destruct url; [| discriminate]. cbn [List.filter].
      rewrite full_url_empty. apply IH, Hfs. }
    destruct Hurl as [-> | [parsed Hparse]]; [discriminate |].
    rewrite Hparse. cbv zeta. cbn [List.filter].
    rewrite (full_url_parsed _ _ Hparse).
    destruct (_ || _); cbn [negb]; [apply IH, Hfs |].
    set (w1 := mk_world (fs w) (stdout w ++ [msg_processing i total])).
    destruct (download_image_fs_only chk net url "Fetched_Images" w1 v Hfs)
      as [Hout Hfs2].
    destruct (download_image_returns chk net url "Fetched_Images" w1)
      as (outcome & w2 & Hdl).
    rewrite Hdl in Hout, Hfs2 |- *. cbn [fst snd] in Hout, Hfs2.
    cbn [fetch_each successes].
    destruct (download_image chk net url "Fetched_Images" v) as [r v2].
    cbn [fst snd] in Hout, Hfs2. subst r.
    destruct (IH total (S i) (if snd outcome then S n else n)
                (mk_world (fs w2) (stdout w2 ++ [fst outcome])) v2 Hfs2)
      as (w' & Hrun & Hw').
    exists w'. rewrite Hrun. split; [| exact Hw'].
    f_equal. f_equal. destruct outcome as [msg [|]]; cbn; lia.
Qed.

(** The loop up to an entry that [urlparse] refuses: the exception
    leaves the loop, after the fetches of the full URLs before it. *)
Lemma process_urls_refused (before : list string) (bad : string)
    (rest : list string) (e : exception) :
  Forall (parses chk) before ->
  bad <> "" ->
  urllib.urlparse chk bad = Raise e ->
  forall total i n w v,
    fs w = fs v ->
    exists w',
      process_urls chk net total i (before ++ bad :: rest) n w = (Raise e, w') /\
      fs w' = fs (fetch_each chk net (List.filter (full_url chk) before) v).
Proof.
  intros Hbefore Hbad Hraise.
  induction Hbefore as [|url before Hurl _ IH]; intros total i n w v Hfs.
  - cbn [app]. rewrite process_urls_cons, Hraise.
    rewrite (proj2 (is_empty_false bad) Hbad). cbv zeta. eauto.
  - cbn [app]. rewrite process_urls_cons.
    destruct (str.is_empty url) eqn:Hempty.
    { destruct url; [| discriminate]. cbn [List.filter].
      rewrite full_url_empty. apply IH, Hfs. }
    destruct Hurl as [-> | [parsed Hparse]]; [discriminate |].
    rewrite Hparse. cbv zeta. cbn [List.filter].
    rewrite (full_url_parsed _ _ Hparse).
    destruct (_ || _); cbn [negb]; [apply IH, Hfs |].
    set (w1 := mk_world (fs w) (stdout w ++ [msg_processing i total])).
    destruct (download_image_fs_only chk net url "Fetched_Images" w1 v Hfs)
      as [_ Hfs2].
    destruct (download_image_returns chk net url "Fetched_Images" w1)
      as (outcome & w2 & Hdl).
    rewrite Hdl in Hfs2 |- *. cbn [snd] in Hfs2. cbn [fetch_each].
    apply IH, Hfs2.
Qed.

Lemma successes_bound (urls : list string) (w : world) :
  successes chk net urls w <= length urls.
Proof.
  revert w; induction urls as [|url urls IH]; intros w; [reflexivity |].
  cbn [successes length].
  destruct (download_image chk net url "Fetched_Images" w) as [r w'].
  specialize (IH w'). destruct (succeeded r); lia.
Qed.

(** [main] up to the loop *)
Lemma main_unfold (typed : string) (w : world) :
  main chk net typed w =
    let w1 :=
      mk_world (fs w)
        (stdout w ++
         [rule_line; "Welcome to the Ubuntu Image Fetcher";
          "A tool for mindfully collecting images from the web";
          "Embracing the principle: 'I am because we are'";
          rule_line; prompt]) in
    if str.is_empty (str.strip whitespace typed)
    then (Ok tt, mk_world (fs w) (stdout w1 ++ [msg_no_url]))
    else
      match process_urls chk net (length (entered_urls typed)) 1
              (entered_urls typed) 0 w1 with
      | (Ok n, w2) =>
          (Ok tt,
           mk_world (fs w2)
             (stdout w2 ++ [String "010" rule_line; summary n; rule_line]))
      | (Raise e, w2) => (Raise e, w2)
      end.
Proof.
  unfold main, input, print, entered_urls, summary. unfold_M.
  cbv beta zeta. cbn [fs stdout]. rewrite <- !app_assoc. cbn [app].
  destruct (str.is_empty (str.strip whitespace typed)).
  - cbn [fs stdout]. rewrite <- ?app_assoc. reflexivity.
  - destruct (process_urls _ _ _ _ _ _ _) as [[n | e] w2]; [| reflexivity].
    destruct (0 <? n)%nat; cbn [fs stdout]; rewrite <- ?app_assoc; reflexivity.
Qed.

Lemma entered_urls_blank (typed : string) :
  str.is_empty (str.strip whitespace typed) = true -> entered_urls typed = [""].
Proof.
  unfold entered_urls. destruct (str.strip whitespace typed); [| discriminate].
  reflexivity.
Qed.

(** X14.  When [urlparse] accepts every entry of the line typed, [main]
    returns, and the file system it leaves is the one that fetching the
    full URLs among the entries, one after the other in their order,
    leaves: the empty entries and those without a scheme or a host change
    nothing. *)
Theorem main_fetches_full_urls (typed : string) (w : world) :
  Forall (parses chk) (entered_urls typed) ->
  exists w',
    main chk net typed w = (Ok tt, w') /\
    fs w' = fs (fetch_each chk net
                  (List.filter (full_url chk) (entered_urls typed)) w).
Proof.
  intros Hparses. rewrite main_unfold. cbv zeta.
  destruct (str.is_empty (str.strip whitespace typed)) eqn:Hblank.
  - eexists; split; [reflexivity |].
    rewrite (entered_urls_blank _ Hblank). cbn [List.filter].
    now rewrite full_url_empty.
  - match goal with
    | |- context [process_urls _ _ ?total ?i ?urls ?n ?w1] =>
        destruct (process_urls_parsed urls Hparses total i n w1 w eq_refl)
          as (w2 & Hrun & Hfs)
    end.
    rewrite Hrun. eexists; split; [reflexivity | exact Hfs].
Qed.

(** X15.  When [urlparse] refuses an entry that is not empty and accepts
    those before it, [main] does not return: the exception of [urlparse]
    leaves it, the full URLs before that entry have been fetched and
    those after it are not. *)
Theorem main_halts_on_refused_url (typed : string) (w : world)
    (before : list string) (bad : string) (rest : list string)
    (e : exception) :
  entered_urls typed = before ++ bad :: rest ->
  Forall (parses chk) before ->
  bad <> "" ->
  urllib.urlparse chk bad = Raise e ->
  exists w',
    main chk net typed w = (Raise e, w') /\
    fs w' = fs (fetch_each chk net (List.filter (full_url chk) before) w).
Proof.
  intros Hurls Hbefore Hbad Hraise. rewrite main_unfold. cbv zeta.
  destruct (str.is_empty (str.strip whitespace typed)) eqn:Hblank.
  - rewrite (entered_urls_blank _ Hblank) in Hurls.
    destruct before as [|? [|? ?]]; cbn in Hurls; congruence.
  - rewrite Hurls.
    match goal with
    | |- context [process_urls _ _ ?total ?i _ ?n ?w1] =>
        destruct (process_urls_refused before bad rest e Hbefore Hbad Hraise
                    total i n w1 w eq_refl) as (w2 & Hrun & Hfs)
    end.
    rewrite Hrun. eauto.
Qed.

(** X16.  When [urlparse] accepts every entry of a line that is not
    blank, the last three lines [main] prints are the rule, the summary
    and the rule, and the number summed up is that of the full URLs whose
    fetch has the flag [True]; it is at most the number of full URLs, and
    with none of them the summary says that no connection was made. *)
Theorem main_summary (typed : string) (w : world) :
  Forall (parses chk) (entered_urls typed) ->
  str.strip whitespace typed <> "" ->
  let full := List.filter (full_url chk) (entered_urls typed) in
  let n := successes chk net full w in
  (exists out,
     stdout (snd (main chk net typed w))
       = out ++ [String "010" rule_line; summary n; rule_line]) /\
  n <= length full /\
  (full = [] -> summary n = msg_no_connections).
Proof.
  intros Hparses Hblank full n. split; [| split].
  - rewrite main_unfold. cbv zeta.
    rewrite (proj2 (is_empty_false _) Hblank).
    match goal with
    | |- context [process_urls _ _ ?total ?i ?urls ?k ?w1] =>
        destruct (process_urls_parsed urls Hparses total i k w1 w eq_refl)
          as (w2 & Hrun & _)
    end.
    rewrite Hrun. cbn [snd stdout Nat.add]. eauto.
  - apply successes_bound.
  - unfold n. intros ->. reflexivity.
Qed.

End driver_properties.

(** ** The parts of a URL *)

Lemma remove_char_none (x : ascii) (s : string) :
  str.char_in x s = false -> str.remove_char x s = s.
Proof.
  induction s as [|a s IH]; [reflexivity |]. cbn.
  intros H. apply orb_false_iff in H as [Ha Hs]. now rewrite Ha, (IH Hs).
Qed.

Lemma partition_first (c : ascii) (a b : string) :
  str.char_in c a = false ->
  str.partition c (a +:+ String c b) = Some (a, b).
Proof.
  induction a as [|x a IH]; cbn.
  - now rewrite Ascii.eqb_refl.
  - intros H. apply orb_false_iff in H as [Hx Ha]. now rewrite Hx, (IH Ha).
Qed.

Lemma partition_app (c : ascii) (a b : string) :
  str.char_in c a = false ->
  str.partition c (a +:+ b) =
    match str.partition c b with
    | Some (l, r) => Some (a +:+ l, r)
    | None => None
    end.
Proof.
  induction a as [|x a IH]; cbn.
  - intros _. now destruct (str.partition c b) as [[l r] |].
  - intros H. apply orb_false_iff in H as [Hx Ha]. rewrite Hx, (IH Ha).
    now destruct (str.partition c b) as [[l r] |].
Qed.

Lemma scheme_char_not (c x : ascii) :
  urllib.scheme_char c = true ->
  urllib.scheme_char x = false -> Ascii.eqb c x = false.
Proof.
  intros Hc Hx. destruct (Ascii.eqb_spec c x) as [-> |]; congruence.
Qed.

Lemma splitnetloc_host (host rest : string) :
  str.all_chars (fun c => negb (str.char_in c "/?#")) host = true ->
  (rest = "" \/ exists c rest', rest = String c rest' /\ str.char_in c "/?#" = true) ->
  urllib.splitnetloc (host +:+ rest) = (host, rest).
Proof.
  intros Hhost Hrest. induction host as [|a host IH].
  - destruct Hrest as [-> | (c & rest' & -> & Hc)]; [reflexivity |].
    cbn [String.append urllib.splitnetloc]. now rewrite Hc.
  - cbn [str.all_chars] in Hhost. apply andb_true_iff in Hhost as [Ha Hhost].
    cbn [String.append urllib.splitnetloc].
    apply negb_true_iff in Ha. now rewrite Ha, (IH Hhost).
Qed.

Lemma lstrip_letter (c : ascii) (s : string) :
  str.is_lower c || str.is_upper c = true ->
  str.lstrip urllib.c0_control_or_space (String c s) = String c s.
Proof.
  intros Hc. cbn [str.lstrip].
  replace (str.char_in c urllib.c0_control_or_space) with false; [reflexivity |].
  destruct c as [[] [] [] [] [] [] [] []]; try reflexivity; discriminate.
Qed.

Section url_properties.

Variable chk : string -> bool.

(** The parts [urlparse] finds in [scheme://host/path?query#fragment] *)
Lemma urlparse_url_of (c0 : ascii) (scheme' host path : string)
    (query fragment : option string) :
  let scheme := String c0 scheme' in
  let url := url_of scheme host path query fragment in
  str.is_lower c0 || str.is_upper c0 = true ->
  str.all_chars urllib.scheme_char scheme = true ->
  str.all_chars (fun c => negb (str.char_in c "/?#[]")) host = true ->
  path = "" \/ str.startswith "/" path = true ->
  str.char_in "?" path = false ->
  str.char_in "#" path = false ->
  str.char_in ";" path = false ->
  (forall q, query = Some q -> str.char_in "#" q = false) ->
  no_tab_newline url = true ->
  urllib.urlparse chk url =
    Ok (urllib.mk_ParseResult (str.lower scheme) host path ""
          (default "" query) (default "" fragment)).
Proof.
  intros scheme url Hletter Hscheme Hhost Hpath Hq Hf Hp Hquery Hclean.
  set (rest := path
               +:+ match query with Some q => "?" +:+ q | None => "" end
               +:+ match fragment with Some f => "#" +:+ f | None => "" end).
  assert (Hurl : url = scheme +:+ String ":" ("//" +:+ host +:+ rest)) by reflexivity.
  unfold no_tab_newline in Hclean.
  apply andb_true_iff in Hclean as [Hclean Hcr].
  apply andb_true_iff in Hclean as [Htab Hlf].
  apply negb_true_iff in Htab, Hlf, Hcr.
  unfold urllib.urlparse, urllib.urlsplit.
  replace (str.lstrip urllib.c0_control_or_space url) with url
    by (symmetry; apply (lstrip_letter c0 _ Hletter)).
  rewrite (remove_char_none _ _ Htab), (remove_char_none _ _ Hcr),
    (remove_char_none _ _ Hlf).
  rewrite Hurl, partition_first
    by (eapply all_chars_not_in; [exact Hscheme | reflexivity]).
  unfold scheme at 1 2. rewrite Hletter. fold scheme. rewrite Hscheme.
  cbn [andb].
  change ("//" +:+ host +:+ rest) with (String "/" (String "/" (host +:+ rest))).
  cbv iota beta.
  assert (Hhost' : str.all_chars (fun c => negb (str.char_in c "/?#")) host = true).
  { clear -Hhost. induction host as [|a host IH]; [reflexivity |].
    cbn [str.all_chars] in *. apply andb_true_iff in Hhost as [Ha Hhost].
    rewrite (IH Hhost), andb_true_r.
    destruct (str.char_in a "/?#") eqn:Hin; [| reflexivity].
    change "/?#[]" with ("/?#" +:+ "[]") in Ha.
    rewrite char_in_app, Hin in Ha. discriminate. }
  rewrite (splitnetloc_host host rest Hhost').
  2: { unfold rest. destruct Hpath as [-> | Hslash].
       - destruct query as [q |]; [right; exists "?"%char; cbn; eauto |].
         destruct fragment as [f |]; [right; exists "#"%char; cbn; eauto |].
         now left.
       - right. destruct path as [|a path]; [discriminate |].
         cbn [str.startswith] in Hslash.
         apply andb_true_iff in Hslash as [Ha _].
         apply Ascii.eqb_eq in Ha as <-. exists "/"%char. eexists.
         split; reflexivity. }
  rewrite (all_chars_not_in _ "[" host Hhost eq_refl),
    (all_chars_not_in _ "]" host Hhost eq_refl).
  cbn [andb orb negb].
  unfold rest.
  destruct query as [q |], fragment as [f |]; cbn [default].
  - pose proof (Hquery q eq_refl) as Hqf.
    change (("?" +:+ q) +:+ "#" +:+ f) with (String "?" (q +:+ String "#" f)).
    rewrite (partition_app "#" path) by exact Hf.
    cbn [str.partition]. change (Ascii.eqb "?" "#") with false. cbv iota.
    rewrite (partition_first "#" q f Hqf).
    rewrite (partition_first "?" path q Hq), Hp, andb_false_r. reflexivity.
  - pose proof (Hquery q eq_refl) as Hqf.
    rewrite append_nil_r.
    change ("?" +:+ q) with (String "?" q).
    rewrite (partition_none "#")
      by (rewrite char_in_app, Hf; cbn; rewrite Hqf; reflexivity).
    rewrite (partition_first "?" path q Hq), Hp, andb_false_r. reflexivity.
  - change ("" +:+ "#" +:+ f) with (String "#" f).
    rewrite (partition_first "#" path f Hf), (partition_none "?" path Hq).
    rewrite Hp, andb_false_r. reflexivity.
  - change ("" +:+ "") with "".
    rewrite append_nil_r, (partition_none "#" path Hf),
      (partition_none "?" path Hq), Hp, andb_false_r. reflexivity.
Qed.

Lemma urlparse_plain_url (scheme host path : string)
    (query fragment : option string) :
  plain_url scheme host path query fragment ->
  urllib.urlparse chk (url_of scheme host path query fragment) =
    Ok (urllib.mk_ParseResult (str.lower scheme) host path ""
          (default "" query) (default "" fragment)).
Proof.
  intros ((c0 & rest & -> & Hletter) & Hscheme & Hhost & Hpath & Hq & Hf & Hp
          & Hquery & Hclean).
  now apply urlparse_url_of.
Qed.


(** X19.  A URL [scheme://host/path?query#fragment] with a host that is
    not empty is a full URL: the driver fetches it. *)
Theorem plain_url_is_full (scheme host path : string)
    (query fragment : option string) :
  plain_url scheme host path query fragment ->
  host <> "" ->
  full_url chk (url_of scheme host path query fragment) = true.
Proof.
  intros Hplain Hhost. unfold full_url.
  rewrite (urlparse_plain_url _ _ _ _ _ Hplain). cbn [urllib.scheme urllib.netloc].
  destruct Hplain as ((c0 & rest & -> & _) & _).
  now rewrite (proj2 (is_empty_false host) Hhost).
Qed.

End url_properties.

(** * The further properties at work *)

(** [retrieved] for a URL of [example.com] from a world where the
    directory is there or is made *)
Ltac retrieved_at path :=
  match goal with
  | |- retrieved _ _ _ _ ?w _ _ =>
      exists (mk_world (<["Fetched_Images" := Dir]> (fs w)) (stdout w)),
        (urllib.mk_ParseResult "https" "example.com" path "" "" "");
      repeat split; vm_compute; reflexivity
  end.



(** X4 at [image/jpeg; charset=binary] *)
Lemma jpeg_with_parameters_witness :
  get_filename_from_url any_bracketed_host "https://example.com/x"
    (image_response "image/jpeg; charset=binary" sunset)
  = Ok "downloaded_image_fce16738.jpeg; charset=binary".
Proof.
  refine (eq_trans
            (jpeg_with_parameters any_bracketed_host "https://example.com/x"
               (image_response "image/jpeg; charset=binary" sunset)
               (urllib.mk_ParseResult "https" "example.com" "/x" "" "" "")
               "; charset=binary" _ _ _ _ _) _);
    try (vm_compute; reflexivity).
  discriminate.
Defined.

(** X5 at [text/html] *)
Lemma content_type_gate_witness :
  download_image any_bracketed_host (always (image_response "text/html" sunset))
    "https://example.com/a.png" "Fetched_Images" empty_world
  = (Ok (msg_not_image "text/html", false), world_connected empty_world).
Proof.
  apply (content_type_gate any_bracketed_host
           (always (image_response "text/html" sunset))
           "https://example.com/a.png" "Fetched_Images" empty_world
           (world_connected empty_world) (image_response "text/html" sunset)).
  - retrieved_at "/a.png".
  - reflexivity.
  - reflexivity.
Defined.

(** X6 at a [Content-Length] that is no number, and at the limit itself *)
Lemma content_length_gate_witness :
  download_image any_bracketed_host
    (always (mk_Response 200
               {[ "content-type" := "image/png"; "content-length" := "abc" ]}
               sunset))
    "https://example.com/a.png" "Fetched_Images" empty_world
  = (Ok (msg_unexpected "invalid literal for int() with base 10: 'abc'", false),
     world_connected empty_world) /\
  (fst (download_image any_bracketed_host
          (always (mk_Response 200
                     {[ "content-type" := "image/png";
                        "content-length" := "10485760" ]} sunset))
          "https://example.com/a.png" "Fetched_Images" empty_world)
     = Ok (msg_too_large, false)
   <-> (10485760 < 10485760)%Z).
Proof.
  split.
  - pose (r := mk_Response 200
                 {[ "content-type" := "image/png"; "content-length" := "abc" ]}
                 sunset).
    refine (proj1 (proj1 (content_length_gate any_bracketed_host (always r)
                            "https://example.com/a.png" "Fetched_Images"
                            empty_world (world_connected empty_world) r "abc"
                            _ _ _ _ _)
                     (new_exception ValueError
                        "invalid literal for int() with base 10: 'abc'") _)).
    + retrieved_at "/a.png".
    + reflexivity.
    + reflexivity.
    + reflexivity.
    + discriminate.
    + vm_compute. reflexivity.
  - pose (r := mk_Response 200
                 {[ "content-type" := "image/png";
                    "content-length" := "10485760" ]} sunset).
    refine (proj2 (content_length_gate any_bracketed_host (always r)
                     "https://example.com/a.png" "Fetched_Images"
                     empty_world (world_connected empty_world) r "10485760"
                     _ _ _ _ _) 10485760%Z _).
    + retrieved_at "/a.png".
    + reflexivity.
    + reflexivity.
    + reflexivity.
    + discriminate.
    + vm_compute. reflexivity.
Defined.

(** X7 at a connection that times out: the message is that of the
    timeout. *)
Lemma network_failures_by_class_witness :
  download_image any_bracketed_host connection_timed_out
    "https://example.com/a.png" "Fetched_Images" empty_world
  = (Ok (msg_timeout, false), world_connected empty_world).
Proof.
  refine (proj1 (network_failures_by_class any_bracketed_host
                   connection_timed_out "https://example.com/a.png"
                   "Fetched_Images" empty_world
                   (mk_world (<["Fetched_Images" := Dir]> (fs empty_world))
                      (stdout empty_world))
                   (urllib.mk_ParseResult "https" "example.com" "/a.png" "" "" "")
                   (new_exception ConnectTimeout
                      "Connection to example.com timed out.") _ _ _) _).
  - vm_compute. reflexivity.
  - vm_compute. reflexivity.
  - reflexivity.
  - cbn. rewrite !elem_of_cons. auto.
Defined.

(** X8 at [http://[] *)
Lemma unparsable_url_fails_witness :
  download_image any_bracketed_host (always (image_response "image/png" sunset))
    "http://[" "Fetched_Images" empty_world
  = (Ok (msg_unexpected "Invalid IPv6 URL", false),
     mk_world {[ "Fetched_Images" := Dir ]} []).
Proof.
  apply (unparsable_url_fails any_bracketed_host
           (always (image_response "image/png" sunset)) "http://["
           "Fetched_Images" empty_world
           (mk_world {[ "Fetched_Images" := Dir ]} [])
           (new_exception ValueError "Invalid IPv6 URL")).
  - vm_compute. reflexivity.
  - vm_compute. reflexivity.
Defined.



(** X11 where [sunset.jpg] holds other bytes *)
Lemma different_content_is_overwritten_witness :
  download_image any_bracketed_host (always (image_response "image/jpeg" sunset))
    "https://example.com/photos/sunset.jpg" "Fetched_Images"
    (world_with moon true true)
  = (Ok (msg_saved "sunset.jpg" "Fetched_Images/sunset.jpg", true),
     mk_world (<["Fetched_Images/sunset.jpg" := File sunset true true]>
                 (fs (world_connected (world_with moon true true))))
       (stdout (world_connected (world_with moon true true)))).
Proof.
  apply (different_content_is_overwritten any_bracketed_host
           (always (image_response "image/jpeg" sunset))
           "https://example.com/photos/sunset.jpg" "Fetched_Images"
           (world_with moon true true)
           (world_connected (world_with moon true true))
           (image_response "image/jpeg" sunset) "sunset.jpg" moon).
  - retrieved_at "/photos/sunset.jpg".
  - repeat split; vm_compute; reflexivity.
  - vm_compute. reflexivity.
  - vm_compute. reflexivity.
  - vm_compute. discriminate.
Defined.


(** X13 at the refusal of [text/html] *)
Lemma flag_matches_message_witness :
  false = str.startswith "✓" (msg_not_image "text/html").
Proof.
  apply (flag_matches_message any_bracketed_host
           (always (image_response "text/html" sunset))
           "https://example.com/a.png" "Fetched_Images" empty_world
           (world_connected empty_world)).
  vm_compute. reflexivity.
Defined.

(** [urlparse] accepts each entry of a list *)
Ltac all_parse :=
  repeat (constructor; [right; eexists; lazy; reflexivity |]); constructor.

(** X14 at a line with a full URL and an entry that is none *)
Lemma main_fetches_full_urls_witness :
  exists w',
    main any_bracketed_host (always (image_response "image/jpeg" sunset))
      "https://example.com/a.jpg, not-a-url" empty_world = (Ok tt, w') /\
    fs w' = fs (fetch_each any_bracketed_host
                  (always (image_response "image/jpeg" sunset))
                  ["https://example.com/a.jpg"] empty_world).
Proof.
  apply (main_fetches_full_urls any_bracketed_host
           (always (image_response "image/jpeg" sunset))
           "https://example.com/a.jpg, not-a-url" empty_world).
  change (entered_urls "https://example.com/a.jpg, not-a-url")
    with ["https://example.com/a.jpg"; "not-a-url"].
  all_parse.
Defined.

(** X15 at a line whose second entry is [http://[]: the first image is
    fetched, the third is not, and [main] raises. *)
Lemma main_halts_on_refused_url_witness :
  exists w',
    main any_bracketed_host (always (image_response "image/jpeg" sunset))
      "https://example.com/a.jpg,http://[,https://example.com/b.jpg"
      empty_world
    = (Raise (new_exception ValueError "Invalid IPv6 URL"), w') /\
    fs w' = fs (fetch_each any_bracketed_host
                  (always (image_response "image/jpeg" sunset))
                  ["https://example.com/a.jpg"] empty_world).
Proof.
  apply (main_halts_on_refused_url any_bracketed_host
           (always (image_response "image/jpeg" sunset))
           "https://example.com/a.jpg,http://[,https://example.com/b.jpg"
           empty_world ["https://example.com/a.jpg"] "http://["
           ["https://example.com/b.jpg"]).
  - vm_compute. reflexivity.
  - all_parse.
  - discriminate.
  - vm_compute. reflexivity.
Defined.

(** X16 at the line of X14: one connection is summed up. *)
Lemma main_summary_witness :
  exists out,
    stdout (snd (main any_bracketed_host
                   (always (image_response "image/jpeg" sunset))
                   "https://example.com/a.jpg, not-a-url" empty_world))
    = out ++ [String "010" rule_line; msg_strengthened 1; rule_line].
Proof.
  destruct (main_summary any_bracketed_host
              (always (image_response "image/jpeg" sunset))
              "https://example.com/a.jpg, not-a-url" empty_world)
    as [(out & Hout) _].
  - change (entered_urls "https://example.com/a.jpg, not-a-url")
      with ["https://example.com/a.jpg"; "not-a-url"].
    all_parse.
  - vm_compute. discriminate.
  - exists out. rewrite Hout.
    replace (summary _) with (msg_strengthened 1) by (vm_compute; reflexivity).
    reflexivity.
Defined.

(** X17 at [example.com/a.png] *)
Lemma entry_without_colon_witness :
  full_url any_bracketed_host "example.com/a.png" = false.
Proof. apply entry_without_colon. reflexivity. Defined.

Lemma plain_url_example :
  plain_url "https" "example.com" "/photos/sunset.jpg"
    (Some "size=large") (Some "top").
Proof.
  repeat split; try reflexivity.
  - exists "h"%char, "ttps". split; reflexivity.
  - right. reflexivity.
  - intros q [= <-]. reflexivity.
Qed.


(** X19 at the same URL *)
Lemma plain_url_is_full_witness :
  full_url any_bracketed_host
    "https://example.com/photos/sunset.jpg?size=large#top" = true.
Proof.
  apply (plain_url_is_full any_bracketed_host
           "https" "example.com" "/photos/sunset.jpg"
           (Some "size=large") (Some "top")).
  - exact plain_url_example.
  - discriminate.
Defined.
